(** * The chat and configuration stores of the web front end

    A shallow embedding of [web/src/stores/chat.js] and
    [web/src/stores/config.js].  Both files are Pinia stores: a handful of
    refs and a few [async] functions that read and write them around one
    [axios] call.  An [async] function is embedded as the part that runs up
    to its [await] and the part that runs when the awaited promise settles;
    whatever happens to the refs in between is visible to the second part,
    as it is in the browser.  The functions of the two views that call the
    stores, [web/src/views/ChatView.vue] and [web/src/views/ConfigView.vue],
    are embedded the same way. *)

From stdpp Require Import gmap list strings.
From Stdlib Require Import ZArith NArith QArith Ascii DecimalN.

Set Warnings "-register-all".
Local Open Scope nat_scope.

(** ** JavaScript strings

    A JavaScript string is a sequence of UTF-16 code units; [trim] and the
    string-to-number conversion are defined on code units, so that is what a
    string is here. *)

Abbreviation jsstring := (list N).

Module Str.

(** The code units of a literal of the source written in ASCII. *)
Fixpoint units (s : string) : jsstring :=
  match s with
  | EmptyString => []
  | String a s' => N_of_ascii a :: units s'
  end.

(** WhiteSpace and LineTerminator of ECMA-262: TAB, LF, VT, FF, CR, SP,
    NBSP, the space separators U+1680, U+2000..U+200A, U+202F, U+205F and
    U+3000, LS, PS, and the byte order mark. *)
Definition isWhiteSpace (c : N) : bool :=
  bool_decide (c ∈ [9; 10; 11; 12; 13; 32; 160; 5760; 8232; 8233; 8239;
                    8287; 12288; 65279]%N)
  || ((8192 <=? c)%N && (c <=? 8202)%N).

Fixpoint trimStart (s : jsstring) : jsstring :=
  match s with
  | c :: s' => if isWhiteSpace c then trimStart s' else s
  | [] => []
  end.

Definition trimEnd (s : jsstring) : jsstring :=
  reverse (trimStart (reverse s)).

(** [String.prototype.trim]. *)
Definition trim (s : jsstring) : jsstring := trimEnd (trimStart s).

(** Decimal digits of a natural number, as [`${n}`] prints an integer. *)
Fixpoint digits (u : Decimal.uint) : jsstring :=
  match u with
  | Decimal.Nil => []
  | Decimal.D0 u' => 48%N :: digits u'
  | Decimal.D1 u' => 49%N :: digits u'
  | Decimal.D2 u' => 50%N :: digits u'
  | Decimal.D3 u' => 51%N :: digits u'
  | Decimal.D4 u' => 52%N :: digits u'
  | Decimal.D5 u' => 53%N :: digits u'
  | Decimal.D6 u' => 54%N :: digits u'
  | Decimal.D7 u' => 55%N :: digits u'
  | Decimal.D8 u' => 56%N :: digits u'
  | Decimal.D9 u' => 57%N :: digits u'
  end.

Definition decimal (n : N) : jsstring := digits (N.to_uint n).

(** *** Is the number a string converts to greater than zero?

    [StringToNumber] of ECMA-262, as far as the sign of its result goes.
    The argument is a StringNumericLiteral between optional white space:
    empty (the number 0), a binary, octal or hexadecimal integer without
    sign, or a decimal literal with optional sign, fraction and exponent,
    or [Infinity].  Anything else is NaN. *)

Definition isDigit (c : N) : bool := (48 <=? c)%N && (c <=? 57)%N.

Definition isDigitOf (radix : N) (c : N) : bool :=
  (isDigit c && (c <? 48 + radix)%N)
  || ((10 <? radix)%N
      && (((97 <=? c)%N && (c <? 87 + radix)%N)
          || ((65 <=? c)%N && (c <? 55 + radix)%N))).

(** The longest prefix of decimal digits, and what follows it. *)
Fixpoint spanDigits (s : jsstring) : jsstring * jsstring :=
  match s with
  | c :: s' =>
      if isDigit c then let '(d, r) := spanDigits s' in (c :: d, r)
      else ([], s)
  | [] => ([], [])
  end.

Definition digitsValue (d : jsstring) : Z :=
  fold_left (fun acc c => (10 * acc + (Z.of_N c - 48))%Z) d 0%Z.

(** The exponent part: nothing, or [e] or [E], an optional sign and at least
    one digit, up to the end of the string. *)
Definition exponentPart (s : jsstring) : option Z :=
  match s with
  | [] => Some 0%Z
  | c :: s' =>
      if bool_decide (c = 101%N) || bool_decide (c = 69%N) then
        let '(neg, s'') :=
          match s' with
          | 43%N :: r => (false, r)
          | 45%N :: r => (true, r)
          | _ => (false, s')
          end in
        match spanDigits s'' with
        | ([], _) | (_, _ :: _) => None
        | (d, []) => Some (if neg then (- digitsValue d)%Z else digitsValue d)
        end
      else None
  end.

(** An unsigned decimal literal other than [Infinity], as mantissa [m] and
    exponent [e]: its mathematical value is [m * 10 ^ e]. *)
Definition unsignedDecimal (s : jsstring) : option (Z * Z) :=
  let '(int, r) := spanDigits s in
  let '(frac, r') :=
    match r with
    | 46%N :: r0 => spanDigits r0
    | _ => ([], r)
    end in
  if bool_decide (int ++ frac = []) then None
  else
    e ← exponentPart r';
    Some (digitsValue (int ++ frac), (e - Z.of_nat (length frac))%Z).

(** [m * 10 ^ e] rounds to a double above zero: it is more than [2 ^ -1075],
    half of the least positive double (the tie goes to the even
    neighbour, zero). *)
Definition roundsAboveZero (m e : Z) : bool :=
  if (0 <=? e)%Z then (0 <? m)%Z
  else (10 ^ (- e) <? m * 2 ^ 1075)%Z.

Definition nonDecimalPositive (radix : N) (d : jsstring) : bool :=
  bool_decide (d ≠ [])
  && forallb (isDigitOf radix) d
  && existsb (fun c => negb (bool_decide (c = 48%N))) d.

Definition numericLiteralPositive (s : jsstring) : bool :=
  match s with
  | 48%N :: 120%N :: d | 48%N :: 88%N :: d => nonDecimalPositive 16 d
  | 48%N :: 111%N :: d | 48%N :: 79%N :: d => nonDecimalPositive 8 d
  | 48%N :: 98%N :: d | 48%N :: 66%N :: d => nonDecimalPositive 2 d
  | 45%N :: _ => false
  | _ =>
      let u := match s with 43%N :: r => r | _ => s end in
      bool_decide (u = units "Infinity")
      || match unsignedDecimal u with
         | Some (m, e) => roundsAboveZero m e
         | None => false
         end
  end.

Definition toNumberPositive (s : jsstring) : bool :=
  numericLiteralPositive (trim s).

End Str.

(** ** JavaScript values

    What [response.data] can hold once axios has parsed a JSON body (or left a
    body that is not JSON as a string), and what the refs of the stores hold.
    A number is the exact rational value of the double; objects are finite
    maps from property names to values. *)

Inductive value :=
  | VUndefined
  | VNull
  | VBool (b : bool)
  | VNum (q : Q)
  | VStr (s : jsstring)
  | VArr (l : list value)
  | VObj (m : gmap jsstring value).

(** A computation that may throw; only [error.message] of what is thrown is
    ever looked at by the stores. *)
Inductive result (A : Type) :=
  | Ok (a : A)
  | Throw (message : jsstring).
Arguments Ok {A} a.
Arguments Throw {A} message.

#[global] Instance result_bind : MBind result :=
  fun A B f r => match r with Ok a => f a | Throw e => Throw e end.

(** The text of the two TypeErrors that reading a property and comparing with
    a number can raise is the engine's own. *)
Record engine := {
  cannotRead : value -> jsstring -> jsstring;
  cannotConvert : jsstring
}.

(** The wording of V8 (Chrome, Node). *)
Definition v8 : engine := {|
  cannotRead v p :=
    Str.units "Cannot read properties of "
    ++ (if v is VNull then Str.units "null" else Str.units "undefined")
    ++ Str.units " (reading '" ++ p ++ Str.units "')";
  cannotConvert := Str.units "Cannot convert object to primitive value"
|}.

Module JS.
Section WithEngine.

Variable E : engine.

Definition truthy (v : value) : bool :=
  match v with
  | VUndefined | VNull => false
  | VBool b => b
  | VNum q => negb (Qnum q =? 0)%Z
  | VStr s => negb (bool_decide (s = []))
  | VArr _ | VObj _ => true
  end.

(** The property name of an array index: a decimal numeral without leading
    zeros. *)
Definition arrayIndex (p : jsstring) : option nat :=
  if forallb Str.isDigit p
     && bool_decide (Str.decimal (Z.to_N (Str.digitsValue p)) = p)
  then Some (Z.to_nat (Str.digitsValue p))
  else None.

(** [v.p] and [v[p]], for a property name [p] that the built-in prototypes
    do not define (as [choices], [length], [0], [message], [content] and
    the configuration fields). *)
Definition get (v : value) (p : jsstring) : result value :=
  match v with
  | VUndefined | VNull => Throw (cannotRead E v p)
  | VBool _ | VNum _ => Ok VUndefined
  | VStr s =>
      Ok (if bool_decide (p = Str.units "length")
          then VNum (inject_Z (Z.of_nat (length s)))
          else match arrayIndex p ≫= (s !!.) with
               | Some c => VStr [c]
               | None => VUndefined
               end)
  | VArr l =>
      Ok (if bool_decide (p = Str.units "length")
          then VNum (inject_Z (Z.of_nat (length l)))
          else default VUndefined (arrayIndex p ≫= (l !!.)))
  | VObj m => Ok (default VUndefined (m !! p))
  end.

(** Does [ToString v] throw, and if not, is the number that string converts
    to greater than zero?  An object prints as [[object Object]] unless it
    has a property [toString] of its own, which a parsed body cannot make
    callable; an array prints its elements joined by commas, [null] as the
    empty string.  A number prints as a numeral of the same sign. *)
Fixpoint stringPositive (v : value) : result bool :=
  match v with
  | VUndefined | VNull | VBool _ => Ok false
  | VNum q => Ok (0 <? Qnum q)%Z
  | VStr s => Ok (Str.toNumberPositive s)
  | VArr [] => Ok false
  | VArr [x] => stringPositive x
  | VArr l =>
      (fix all (l : list value) : result bool :=
         match l with
         | [] => Ok false
         | x :: l' => _ ← stringPositive x; all l'
         end) l
  | VObj m =>
      if bool_decide (is_Some (m !! Str.units "toString"))
      then Throw (cannotConvert E) else Ok false
  end.

(** [v > 0]: [ToPrimitive] with hint number, which for an array or an object
    ends in its [toString], then [ToNumber]. *)
Definition greaterThanZero (v : value) : result bool :=
  match v with
  | VBool b => Ok b
  | _ => stringPositive v
  end.

(** The own enumerable properties that [{...v}] copies. *)
Definition spread (v : value) : gmap jsstring value :=
  match v with
  | VObj m => m
  | VArr l => list_to_map (imap (fun i x => (Str.decimal (N.of_nat i), x)) l)
  | VStr s =>
      list_to_map (imap (fun i c => (Str.decimal (N.of_nat i), VStr [c])) s)
  | _ => ∅
  end.

End WithEngine.
End JS.

(** How the promise of an axios call settles: fulfilled with a response whose
    [data] is the parsed body, or rejected with an error (a status outside
    2xx, no response at all, or no response within the [timeout] given), of
    which the stores read [message]. *)
Inductive outcome :=
  | Resolved (data : value)
  | Rejected (message : jsstring).

(** ** The chat store, [stores/chat.js] *)

Module Chat.

Import Str.

(** A message of [chatHistory].  [role] is ['user'] or ['assistant'];
    [content] is a string for what the user typed and for an error, and
    whatever the response held for a reply. *)
Record message := {
  id : jsstring;
  role : jsstring;
  content : value;
  timestamp : jsstring
}.

(** The refs of the store.  [messageCounter] counts the messages made, from 0
    and far below the 2^53 up to which a double counts exactly. *)
Record store := {
  chatHistory : list message;
  isLoading : bool;
  messageCounter : N
}.

Definition initial : store :=
  {| chatHistory := []; isLoading := false; messageCounter := 0 |}.

(** The body posted to [/api/chat]. *)
Record request := {
  api_url : value;
  api_key : value;
  model : value;
  messages : list (jsstring * value);
  temperature : value;
  max_tokens : value
}.

(** Where a call of an [async] function stands when it gives control back:
    its promise is fulfilled, or it waits for the request it has posted. *)
Inductive progress :=
  | Fulfilled (v : value)
  | Awaiting (r : request).

Definition setLoading (b : bool) (st : store) : store :=
  {| chatHistory := chatHistory st;
     isLoading := b;
     messageCounter := messageCounter st |}.

(** [{ id: `msg_${messageCounter.value++}`, role, content, timestamp }],
    the object [userMessage], [assistantMessage] and [errorMessage] are
    built as; [now] is what [new Date().toISOString()] returns. *)
Definition newMessage (role : jsstring) (content : value) (now : jsstring)
    (st : store) : message :=
  {| id := units "msg_" ++ decimal (messageCounter st);
     role := role;
     content := content;
     timestamp := now |}.

(** Building a message, which counts [messageCounter] up, and
    [chatHistory.value.push] of it. *)
Definition push (role : jsstring) (content : value) (now : jsstring)
    (st : store) : store :=
  {| chatHistory := chatHistory st ++ [newMessage role content now st];
     isLoading := isLoading st;
     messageCounter := (messageCounter st + 1)%N |}.

(** [chatHistory.value = []]. *)
Definition clearHistory (st : store) : store :=
  {| chatHistory := [];
     isLoading := isLoading st;
     messageCounter := messageCounter st |}.

Definition newConversation (st : store) : store := clearHistory st.

(** ['API调用失败: '], the prefix of the content of an error message. *)
Definition failurePrefix : jsstring :=
  units "API" ++ [35843; 29992; 22833; 36133]%N ++ units ": ".

Section WithEngine.

Variable E : engine.

(** The argument of [axios.post]: the fields of [config] and the history
    mapped to [{role, content}]. *)
Definition requestBody (config : value) (history : list message)
    : result request :=
  url ← JS.get E config (units "api_url");
  key ← JS.get E config (units "api_key");
  mdl ← JS.get E config (units "model");
  let msgs := map (fun msg => (role msg, content msg)) history in
  temp ← JS.get E config (units "temperature");
  maxt ← JS.get E config (units "max_tokens");
  Ok {| api_url := url; api_key := key; model := mdl; messages := msgs;
        temperature := temp; max_tokens := maxt |}.

(** The value of [aiContent] when the try block reaches the assistant
    message: the OpenAI format first, the simplified format second, the
    empty string otherwise. *)
Definition aiContent (aiResponse : value) : result value :=
  choices ← JS.get E aiResponse (units "choices");
  nonEmpty ←
    (if JS.truthy choices
     then len ← JS.get E choices (units "length"); JS.greaterThanZero E len
     else Ok false);
  if nonEmpty : bool then
    first ← JS.get E choices (units "0");
    msg ← JS.get E first (units "message");
    JS.get E msg (units "content")
  else
    content ← JS.get E aiResponse (units "content");
    if JS.truthy content then Ok content else Ok (VStr []).

(** The end of the try statement: the assistant message of the try block
    or the error message of the catch block is pushed, and the finally
    block clears [isLoading]. *)
Definition finish (r : result value) (now : jsstring) (st : store)
    : store :=
  setLoading false
    match r with
    | Ok content => push (units "assistant") content now st
    | Throw message =>
        push (units "assistant") (VStr (failurePrefix ++ message)) now st
    end.

(** The content of the message the try statement pushes, whichever block
    ran. *)
Definition reply (r : result value) : value :=
  match r with
  | Ok content => content
  | Throw message => VStr (failurePrefix ++ message)
  end.

(** [sendMessage(content)] up to its [await].  [config] is what
    [configStore.config] holds, [now] the time the user message is created
    at, [now'] the time of the error message should building the request
    throw. *)
Definition sendMessage (config : value) (content : jsstring)
    (now now' : jsstring) (st : store) : store * progress :=
  if negb (JS.truthy (VStr (trim content))) || isLoading st then
    (st, Fulfilled VUndefined)
  else
    let st1 :=
      setLoading true (push (units "user") (VStr (trim content)) now st) in
    match requestBody config (chatHistory st1) with
    | Ok r => (st1, Awaiting r)
    | Throw message => (finish (Throw message) now' st1, Fulfilled VUndefined)
    end.

(** How the try block ends once the request has settled: a rejection is
    thrown at the [await], a response is read for [aiContent]. *)
Definition received (o : outcome) : result value :=
  match o with
  | Resolved data => aiContent data
  | Rejected message => Throw message
  end.

(** [sendMessage] from its [await] on, run on the store as it is when the
    request settles; the value is what the promise of [sendMessage] is
    fulfilled with. *)
Definition sendMessage_resume (o : outcome) (now : jsstring) (st : store)
    : store * value :=
  (finish (received o) now st, VUndefined).

End WithEngine.

(** The ids of the history are [msg_k] for distinct numbers [k] that
    [messageCounter] has already passed. *)
Definition numbered (st : store) : Prop :=
  ∃ ks : list N,
    map id (chatHistory st) = map (fun k => units "msg_" ++ decimal k) ks
    ∧ NoDup ks
    ∧ Forall (fun k => (k < messageCounter st)%N) ks.

(** A message as the store makes them: from the assistant, or from the user
    with a text that is not blank and has no white space at its ends. *)
Definition wellFormed (msg : message) : Prop :=
  role msg = units "assistant"
  ∨ (role msg = units "user"
     ∧ ∃ s, content msg = VStr s ∧ s ≠ [] ∧ trim s = s).

End Chat.

(** ** A session of the chat store

    The calls the views make and the settling of posted requests, in the
    order the event loop runs them.  [sent] records every request posted,
    oldest first; [inFlight] counts the calls of [sendMessage] suspended at
    their [await]. *)

Module Session.

Import Chat.

Record world := {
  current : store;
  inFlight : nat;
  sent : list request
}.

Definition start : world :=
  {| current := initial; inFlight := 0; sent := [] |}.

(** [isLoading] is set exactly while one call of [sendMessage] is suspended
    at its [await], and there are never two. *)
Definition balanced (w : world) : Prop :=
  inFlight w = if isLoading (current w) then 1 else 0.

Inductive event :=
  | Send (config : value) (content : jsstring) (now now' : jsstring)
  | Settle (o : outcome) (now : jsstring)
  | ClearHistory
  | NewConversation.

Section WithEngine.

Variable E : engine.

(** A request can only settle when one is in flight. *)
Definition step (w : world) (e : event) : option world :=
  match e with
  | Send config content now now' =>
      match sendMessage E config content now now' (current w) with
      | (st, Fulfilled _) =>
          Some {| current := st; inFlight := inFlight w; sent := sent w |}
      | (st, Awaiting r) =>
          Some {| current := st;
                  inFlight := S (inFlight w);
                  sent := sent w ++ [r] |}
      end
  | Settle o now =>
      match inFlight w with
      | 0 => None
      | S n =>
          Some {| current := (sendMessage_resume E o now (current w)).1;
                  inFlight := n;
                  sent := sent w |}
      end
  | ClearHistory =>
      Some {| current := clearHistory (current w);
              inFlight := inFlight w;
              sent := sent w |}
  | NewConversation =>
      Some {| current := newConversation (current w);
              inFlight := inFlight w;
              sent := sent w |}
  end.

Fixpoint run (w : world) (es : list event) : option world :=
  match es with
  | [] => Some w
  | e :: es' => step w e ≫= fun w' => run w' es'
  end.

End WithEngine.

(** The roles of a history that was never cleared: the user and the
    assistant take turns, the user first. *)
Fixpoint turns (n : nat) : list jsstring :=
  match n with
  | 0 => []
  | S n' =>
      turns n'
      ++ [if Nat.even n' then Str.units "user" else Str.units "assistant"]
  end.

(** The events that replace the array of [chatHistory]. *)
Definition clears (e : event) : bool :=
  match e with
  | ClearHistory | NewConversation => true
  | Send _ _ _ _ | Settle _ _ => false
  end.

End Session.

(** ** The configuration store, [stores/config.js] *)

Module Config.

Import Str.

Record store := {
  config : value;
  models : value;
  loading : bool;
  error : value
}.

(** [{ api_url: '', api_key: '', model: '', temperature: 0.7,
       max_tokens: 1000 }]. *)
Definition defaults : value :=
  VObj (<[units "api_url" := VStr []]>
        (<[units "api_key" := VStr []]>
         (<[units "model" := VStr []]>
          (<[units "temperature" := VNum (7 # 10)]>
           (<[units "max_tokens" := VNum (1000 # 1)]> ∅))))).

Definition initial : store :=
  {| config := defaults; models := VObj ∅; loading := false;
     error := VNull |}.

(** ['保存配置失败: ']. *)
Definition saveFailed : jsstring :=
  [20445; 23384; 37197; 32622; 22833; 36133]%N ++ units ": ".

(** [loading.value = true; error.value = null], the first two statements of
    every action of the store. *)
Definition begin (st : store) : store :=
  {| config := config st; models := models st; loading := true;
     error := VNull |}.

(** [saveConfig(newConfig)] up to its [await]: the store and the [config]
    field of the body posted to [/api/config]. *)
Definition saveConfig (newConfig : value) (st : store) : store * value :=
  let st1 := begin st in
  let updatedConfig := VObj (JS.spread newConfig ∪ JS.spread (config st1)) in
  ({| config := updatedConfig; models := models st1; loading := loading st1;
      error := error st1 |},
   updatedConfig).

(** [saveConfig] from its [await] on; the value is what it returns. *)
Definition saveConfig_resume (o : outcome) (st : store) : store * value :=
  match o with
  | Resolved _ =>
      ({| config := config st; models := models st; loading := false;
          error := error st |},
       VBool true)
  | Rejected message =>
      ({| config := config st; models := models st; loading := false;
          error := VStr (saveFailed ++ message) |},
       VBool false)
  end.

(** ['加载配置失败: '] and ['切换模型失败: ']. *)
Definition loadFailed : jsstring :=
  [21152; 36733; 37197; 32622; 22833; 36133]%N ++ units ": ".

Definition switchFailed : jsstring :=
  [20999; 25442; 27169; 22411; 22833; 36133]%N ++ units ": ".

(** The catch block of [loadConfig] and [switchModel]:
    [error.value = prefix + err.message; loading.value = false;
     return false]. *)
Definition failed (prefix message : jsstring) (st : store) : store * value :=
  ({| config := config st; models := models st; loading := false;
      error := VStr (prefix ++ message) |},
   VBool false).

(** [a || b]. *)
Definition orElse (a b : value) : value := if JS.truthy a then a else b.

Section WithEngine.

Variable E : engine.

(** [loadConfig()] up to its [await] of [axios.get('/api/config')]. *)
Definition loadConfig (st : store) : store := begin st.

(** [loadConfig] from its [await] on.  [config] is assigned before
    [response.data.model_configs] is read. *)
Definition loadConfig_resume (o : outcome) (st : store) : store * value :=
  match o with
  | Rejected message => failed loadFailed message st
  | Resolved data =>
      match JS.get E data (units "config") with
      | Throw message => failed loadFailed message st
      | Ok c =>
          let st1 :=
            {| config := orElse c defaults; models := models st;
               loading := loading st; error := error st |} in
          match JS.get E data (units "model_configs") with
          | Throw message => failed loadFailed message st1
          | Ok mc =>
              ({| config := config st1; models := orElse mc (VObj ∅);
                  loading := false; error := error st1 |},
               VBool true)
          end
      end
  end.

(** [switchModel(modelName)] up to its [await]: the store and the path the
    request is posted to, [`/api/models/${modelName}`]. *)
Definition switchModel (modelName : jsstring) (st : store)
    : store * jsstring :=
  (begin st, units "/api/models/" ++ modelName).

(** [switchModel] from its [await] on. *)
Definition switchModel_resume (o : outcome) (st : store) : store * value :=
  match o with
  | Rejected message => failed switchFailed message st
  | Resolved data =>
      match JS.get E data (units "config") with
      | Throw message => failed switchFailed message st
      | Ok c =>
          ({| config := orElse c (config st); models := models st;
              loading := false; error := error st |},
           VBool true)
      end
  end.

End WithEngine.

End Config.

(** ** A session of the configuration store

    The actions of the store are not guarded by [loading]: any number of them
    can wait for their requests at once, and the requests settle in any
    order.  [pending] lists the actions suspended at their [await], oldest
    first. *)

Module ConfigSession.

Import Config.

Inductive action :=
  | Loading
  | Saving
  | Switching.

Record world := {
  current : store;
  pending : list action
}.

Definition start : world := {| current := initial; pending := [] |}.

Inductive event :=
  | Load
  | Save (newConfig : value)
  | Switch (modelName : jsstring)
  | Settle (i : nat) (o : outcome).

Section WithEngine.

Variable E : engine.

(** An action from its [await] on. *)
Definition resume (a : action) (o : outcome) (st : store) : store * value :=
  match a with
  | Loading => loadConfig_resume E o st
  | Saving => saveConfig_resume o st
  | Switching => switchModel_resume E o st
  end.

(** [Settle i o]: the request of the [i]-th pending action settles as [o]. *)
Definition step (w : world) (e : event) : option world :=
  match e with
  | Load =>
      Some {| current := loadConfig (current w);
              pending := pending w ++ [Loading] |}
  | Save newConfig =>
      Some {| current := (saveConfig newConfig (current w)).1;
              pending := pending w ++ [Saving] |}
  | Switch modelName =>
      Some {| current := (switchModel modelName (current w)).1;
              pending := pending w ++ [Switching] |}
  | Settle i o =>
      a ← pending w !! i;
      Some {| current := (resume a o (current w)).1;
              pending := delete i (pending w) |}
  end.

Fixpoint run (w : world) (es : list event) : option world :=
  match es with
  | [] => Some w
  | e :: es' => step w e ≫= fun w' => run w' es'
  end.

End WithEngine.

End ConfigSession.

(** ** The chat view, [views/ChatView.vue]

    The view keeps a ref [chatHistory] of its own, to which it assigns the
    array of the store's ref: the two refs then hold the same array, and what
    the store pushes shows in the view, until the store's ref is given a new
    array by [clearHistory].  Arrays are told apart by a number; [chat] holds
    the refs of the store, [chatHistory chat] being what is in the array its
    ref holds now, and [retired] what is in every other array, to which
    nothing writes any more. *)

Module ChatView.

Import Chat.

Record world := {
  chat : store;
  array : nat;
  retired : gmap nat (list message);
  fresh : nat;
  inFlight : nat;
  sent : list request;
  inputMessage : jsstring;
  shown : nat
}.

(** Before the view is mounted: [inputMessage = ref('')], and
    [chatHistory = ref([])] holds an array of the view's own. *)
Definition initial : world :=
  {| chat := Chat.initial; array := 0; retired := {[1 := []]}; fresh := 2;
     inFlight := 0; sent := []; inputMessage := []; shown := 1 |}.

(** What the template renders: the array the view's ref holds. *)
Definition displayed (w : world) : list message :=
  if decide (shown w = array w) then chatHistory (chat w)
  else default [] (retired w !! shown w).

(** [chatHistory.value = chatStore.chatHistory]. *)
Definition showStore (w : world) : world :=
  {| chat := chat w; array := array w; retired := retired w;
     fresh := fresh w; inFlight := inFlight w; sent := sent w;
     inputMessage := inputMessage w; shown := array w |}.

(** [chatStore.clearHistory()]: the store's ref is given a new, empty
    array. *)
Definition clearStore (w : world) : world :=
  {| chat := Chat.clearHistory (chat w); array := fresh w;
     retired := <[array w := chatHistory (chat w)]> (retired w);
     fresh := S (fresh w); inFlight := inFlight w; sent := sent w;
     inputMessage := inputMessage w; shown := shown w |}.

(** [clearHistory()] and [newConversation()] of the view. *)
Definition clearHistory (w : world) : world := showStore (clearStore w).

Definition newConversation (w : world) : world := showStore (clearStore w).

(** [sendMessage()] of the view from its [await] on:
    [inputMessage.value = ''; chatHistory.value = chatStore.chatHistory]. *)
Definition sendMessage_resume (w : world) : world :=
  showStore
    {| chat := chat w; array := array w; retired := retired w;
       fresh := fresh w; inFlight := inFlight w; sent := sent w;
       inputMessage := []; shown := shown w |}.

Inductive event :=
  | Mounted
  | Input (text : jsstring)
  | SendMessage (config : value) (now now' : jsstring)
  | ClearHistory
  | NewConversation
  | Settle (o : outcome) (now : jsstring).

Section WithEngine.

Variable E : engine.

(** [sendMessage()] of the view.  When the store's [sendMessage] returns
    without posting, its promise is already fulfilled and the rest of the
    view's function runs before any other event; otherwise it runs when
    the request has settled and the store's function is done. *)
Definition sendMessage (config : value) (now now' : jsstring) (w : world)
    : world :=
  if negb (JS.truthy (VStr (Str.trim (inputMessage w)))) then w
  else
    match Chat.sendMessage E config (inputMessage w) now now' (chat w) with
    | (st, Fulfilled _) =>
        sendMessage_resume
          {| chat := st; array := array w; retired := retired w;
             fresh := fresh w; inFlight := inFlight w; sent := sent w;
             inputMessage := inputMessage w; shown := shown w |}
    | (st, Awaiting r) =>
        {| chat := st; array := array w; retired := retired w;
           fresh := fresh w; inFlight := S (inFlight w);
           sent := sent w ++ [r];
           inputMessage := inputMessage w; shown := shown w |}
    end.

(** [Mounted]: the [onMounted] hook; [Input]: [v-model] writes what is in
    the text area to [inputMessage]; [Settle]: the request in flight
    settles, the store's [sendMessage] runs to its end and then the
    view's. *)
Definition step (w : world) (e : event) : option world :=
  match e with
  | Mounted => Some (showStore w)
  | Input text =>
      Some {| chat := chat w; array := array w; retired := retired w;
              fresh := fresh w; inFlight := inFlight w; sent := sent w;
              inputMessage := text; shown := shown w |}
  | SendMessage config now now' => Some (sendMessage config now now' w)
  | ClearHistory => Some (clearHistory w)
  | NewConversation => Some (newConversation w)
  | Settle o now =>
      match inFlight w with
      | 0 => None
      | S n =>
          Some (sendMessage_resume
                  {| chat := (Chat.sendMessage_resume E o now (chat w)).1;
                     array := array w; retired := retired w;
                     fresh := fresh w; inFlight := n; sent := sent w;
                     inputMessage := inputMessage w; shown := shown w |})
      end
  end.

Fixpoint run (w : world) (es : list event) : option world :=
  match es with
  | [] => Some w
  | e :: es' => step w e ≫= fun w' => run w' es'
  end.

(** The store of the view's world as a world of [Session]. *)
Definition session (w : world) : Session.world :=
  {| Session.current := chat w;
     Session.inFlight := inFlight w;
     Session.sent := sent w |}.

End WithEngine.

End ChatView.

(** ** The configuration view, [views/ConfigView.vue]

    The form's own refs, the store, and the alerts raised so far.  Of the
    view's functions, [saveConfig], [applyModelConfig] and [resetConfig] are
    here.  The two actions of the store they call catch whatever their
    request throws and return [true] or [false], so their promises are always
    fulfilled and the catch blocks of the view never run. *)

Module ConfigView.

Record form := {
  config : value;
  selectedModel : jsstring;
  loading : bool;
  error : value
}.

Record world := {
  local : form;
  remote : Config.store;
  alerts : list jsstring
}.

(** ['配置已保存！'] and ['模型已切换！']. *)
Definition saved : jsstring := [37197; 32622; 24050; 20445; 23384; 65281]%N.


(** [loading.value = true; error.value = null]. *)
Definition begin (f : form) : form :=
  {| config := config f; selectedModel := selectedModel f; loading := true;
     error := VNull |}.

(** [alert(text)], then the finally block, [loading.value = false]. *)
Definition report (text : jsstring) (st : Config.store) (w : world) : world :=
  {| local := {| config := config (local w);
                 selectedModel := selectedModel (local w);
                 loading := false;
                 error := error (local w) |};
     remote := st;
     alerts := alerts w ++ [text] |}.

(** [resetConfig()]. *)
Definition resetConfig (w : world) : world :=
  {| local := {| config := Config.defaults; selectedModel := [];
                 loading := loading (local w); error := error (local w) |};
     remote := remote w;
     alerts := alerts w |}.

(** [saveConfig()] of the view up to its [await]: the world and the record
    the store posts. *)
Definition saveConfig (w : world) : world * value :=
  let '(st, posted) := Config.saveConfig (config (local w)) (remote w) in
  ({| local := begin (local w); remote := st; alerts := alerts w |}, posted).

(** [saveConfig()] of the view from its [await] on. *)
Definition saveConfig_resume (o : outcome) (w : world) : world :=
  report saved (Config.saveConfig_resume o (remote w)).1 w.

Section WithEngine.

Variable E : engine.



End WithEngine.

End ConfigView.

(** ** The result type of the specification

    [Failure{kind, detail}] as a value a caller could be handed; the stores
    never build one. *)

Definition Failure (kind detail : jsstring) : value :=
  VObj (<[Str.units "kind" := VStr kind]>
        (<[Str.units "detail" := VStr detail]> ∅)).

(** The response shapes of the specification.  [OpenAICompatible body text]:
    the body has a [choices] array whose first element holds a [message]
    object with [content]; [Simplified body text]: the body has a top-level
    [content] string; [IflowEnvelope status msg inner body]: the body has
    the fields [status], [msg] and [body]. *)

Definition OpenAICompatible (body text : value) : Prop :=
  ∃ m first rest msg,
    body = VObj m
    ∧ m !! Str.units "choices" = Some (VArr (VObj first :: rest))
    ∧ first !! Str.units "message" = Some (VObj msg)
    ∧ msg !! Str.units "content" = Some text.

Definition Simplified (body : value) (text : jsstring) : Prop :=
  ∃ m, body = VObj m ∧ m !! Str.units "content" = Some (VStr text).

Definition IflowEnvelope (status msg inner body : value) : Prop :=
  ∃ m,
    body = VObj m
    ∧ m !! Str.units "status" = Some status
    ∧ m !! Str.units "msg" = Some msg
    ∧ m !! Str.units "body" = Some inner.

(** ** Concrete inputs *)

Module Sample.

Import Str.

Definition obj (fields : list (string * value)) : value :=
  VObj (list_to_map (map (fun '(k, v) => (units k, v)) fields)).

Definition str (s : string) : value := VStr (units s).

Definition t0 : jsstring := units "2024-01-01T12:00:00.000Z".
Definition t1 : jsstring := units "2024-01-01T12:00:01.000Z".
Definition t2 : jsstring := units "2024-01-01T12:00:05.000Z".

Definition config : value :=
  obj [("api_url", str "https://api.openai.com/v1/chat/completions");
       ("api_key", str "sk-test");
       ("model", str "gpt-3.5-turbo");
       ("temperature", VNum (7 # 10));
       ("max_tokens", VNum (1000 # 1))].

Definition openai : value :=
  obj [("choices",
        VArr [obj [("message",
                    obj [("role", str "assistant");
                         ("content", str "Hi there!")])]])].

Definition simplified : value := obj [("content", str "Hi there!")].

Definition iflow : value :=
  obj [("status", str "0"); ("msg", str "success");
       ("body", str "Hi there!")].

Definition iflowAndChoices : value :=
  obj [("status", str "500"); ("msg", str "model failed"); ("body", VNull);
       ("choices", VArr [obj [("message", obj [("content", str "x")])]])].

Definition tokenExpired : value :=
  obj [("status", str "434"); ("msg", str "Your API Token has expired");
       ("body", VNull)].

Definition fooBar : value := obj [("foo", str "bar")].

Definition status401 : outcome :=
  Rejected (units "Request failed with status code 401").

Definition timeout : outcome :=
  Rejected (units "timeout of 30000ms exceeded").

Definition invalid : value :=
  obj [("api_url", str ""); ("temperature", VNum (5 # 1));
       ("max_tokens", VNum (0 # 1))].

Definition saved : outcome :=
  Resolved (obj [("message", str "ok"); ("config", invalid)]).

(** The store once ["Hello"] has been sent and the request is in flight. *)
Definition sending : Chat.store :=
  (Chat.sendMessage v8 config (units "Hello") t0 t0 Chat.initial).1.

(** The user message of [sending]. *)
Definition hello : Chat.message :=
  {| Chat.id := units "msg_0";
     Chat.role := units "user";
     Chat.content := str "Hello";
     Chat.timestamp := t0 |}.

(** The second message of the history, made at [t1]. *)
Definition answer (content : value) : Chat.message :=
  {| Chat.id := units "msg_1";
     Chat.role := units "assistant";
     Chat.content := content;
     Chat.timestamp := t1 |}.

(** The store once the request of [sending] has settled as [o]. *)
Definition settled (o : outcome) : Chat.store :=
  (Chat.sendMessage_resume v8 o t1 sending).1.

(** A response to [GET /api/config]. *)
Definition served : value :=
  obj [("config", config);
       ("model_configs", obj [("gpt-3.5-turbo", config)])].

(** A session of the configuration store: a load and a save are started, the
    load is answered with [null], a switch is started and rejected, and the
    save succeeds. *)
Definition settings : list ConfigSession.event :=
  [ConfigSession.Load; ConfigSession.Save invalid;
   ConfigSession.Settle 0 (Resolved VNull);
   ConfigSession.Switch (units "gpt-4");
   ConfigSession.Settle 1 status401;
   ConfigSession.Settle 0 saved].

(** A session of the chat store without a clear: a question that is
    answered and one that fails. *)
Definition dialogue : list Session.event :=
  [Session.Send config (units "Hello") t0 t0;
   Session.Settle (Resolved openai) t1;
   Session.Send config (units " And now? ") t2 t2;
   Session.Settle timeout t2].

(** The same with the history cleared while the second request is in
    flight. *)
Definition interrupted : list Session.event :=
  [Session.Send config (units "Hello") t0 t0;
   Session.Settle (Resolved openai) t1;
   Session.Send config (units " And now? ") t2 t2;
   Session.ClearHistory;
   Session.Settle timeout t2].

(** White space only: a space, an ideographic space and a line feed. *)
Definition blank : jsstring := [32; 12288; 10]%N.

(** A body with [choices] whose first element has no [message], and a
    top-level [content]. *)
Definition noMessage : value :=
  obj [("choices", VArr [obj [("index", VNum (0 # 1))]]);
       ("content", str "Hi there!")].

(** A body whose first choice has a [message] without [content]. *)
Definition noContent : value :=
  obj [("choices", VArr [obj [("message", obj [("role", str "assistant")])]])].

(** What is done in the view: it is mounted, ["Hello"] is typed and sent,
    the history is cleared, and the reply arrives. *)
Definition clicks : list ChatView.event :=
  [ChatView.Input (units "Hello");
   ChatView.SendMessage config t0 t0;
   ChatView.ClearHistory;
   ChatView.Settle (Resolved openai) t1].

(** The view while the request of ["Hello"] is in flight and the next
    question has been typed. *)
Definition waiting : ChatView.world :=
  {| ChatView.chat := sending;
     ChatView.array := 0;
     ChatView.retired := {[1 := []]};
     ChatView.fresh := 2;
     ChatView.inFlight := 1;
     ChatView.sent := [];
     ChatView.inputMessage := units "And now?";
     ChatView.shown := 0 |}.

(** The configuration form with a model selected and a record to save. *)
Definition form : ConfigView.world :=
  {| ConfigView.local :=
       {| ConfigView.config := invalid;
          ConfigView.selectedModel := units "gpt-4";
          ConfigView.loading := false;
          ConfigView.error := VNull |};
     ConfigView.remote := Config.initial;
     ConfigView.alerts := [] |}.

End Sample.

(** * Properties *)

(** ** [trim] *)

Section Trim.

Import Str.

Lemma trimStart_split (s : jsstring) :
  ∃ l, s = l ++ trimStart s ∧ Forall (fun c => isWhiteSpace c = true) l.
Proof.
  induction s as [|c s [l [Hs Hl]]]; simpl.
  - by exists [].
  - destruct (isWhiteSpace c) eqn:Hc.
    + exists (c :: l). split; [by rewrite Hs at 1 | by constructor].
    + by exists [].
Qed.

Lemma trimStart_head (s : jsstring) (c : N) :
  head (trimStart s) = Some c → isWhiteSpace c = false.
Proof.
  induction s as [|d s IH]; simpl; [done|].
  destruct (isWhiteSpace d) eqn:Hd; [done|].
  simpl. by intros [= <-].
Qed.

Lemma trimEnd_split (s : jsstring) :
  ∃ r, s = trimEnd s ++ r ∧ Forall (fun c => isWhiteSpace c = true) r.
Proof.
  destruct (trimStart_split (reverse s)) as [l [Hs Hl]].
  exists (reverse l). split.
  - unfold trimEnd. rewrite <- reverse_app, <- Hs.
    by rewrite reverse_involutive.
  - by apply Forall_reverse.
Qed.

Lemma trimEnd_last (s : jsstring) (c : N) :
  last (trimEnd s) = Some c → isWhiteSpace c = false.
Proof.
  unfold trimEnd. rewrite last_reverse. apply trimStart_head.
Qed.

Lemma trimEnd_head (s : jsstring) (c : N) :
  head (trimEnd s) = Some c → head s = Some c.
Proof.
  destruct (trimEnd_split s) as [r [Hs _]].
  intros Hc. rewrite Hs. by destruct (trimEnd s).
Qed.

(** [trim s] is [s] without a run of white space at either end, and is
    empty or starts and ends with something else. *)
Lemma trim_spec (s : jsstring) :
  ∃ l r,
    s = l ++ trim s ++ r
    ∧ Forall (fun c => isWhiteSpace c = true) l
    ∧ Forall (fun c => isWhiteSpace c = true) r
    ∧ (∀ c, head (trim s) = Some c → isWhiteSpace c = false)
    ∧ (∀ c, last (trim s) = Some c → isWhiteSpace c = false).
Proof.
  destruct (trimStart_split s) as [l [Hs Hl]].
  destruct (trimEnd_split (trimStart s)) as [r [Ht Hr]].
  exists l, r. unfold trim. repeat split; try done.
  - by rewrite <- Ht.
  - intros c Hc. by apply (trimStart_head s), trimEnd_head.
  - apply trimEnd_last.
Qed.

End Trim.

(** ** The chat store *)

Section ChatFacts.

Import Str Chat.

Variable E : engine.

Lemma get_object (m : gmap jsstring value) (p : jsstring) :
  JS.get E (VObj m) p = Ok (default VUndefined (m !! p)).
Proof. reflexivity. Qed.

Lemma finish_history (r : result value) (now : jsstring) (st : store) :
  chatHistory (finish r now st)
  = chatHistory st ++ [newMessage (units "assistant") (reply r) now st].
Proof. by destruct r. Qed.

Lemma finish_isLoading (r : result value) (now : jsstring) (st : store) :
  isLoading (finish r now st) = false.
Proof. reflexivity. Qed.

Lemma finish_messageCounter (r : result value) (now : jsstring) (st : store) :
  messageCounter (finish r now st) = (messageCounter st + 1)%N.
Proof. by destruct r. Qed.

(** A request carries the whole history, in order. *)
Lemma requestBody_messages (config : value) (history : list message)
    (r : request) :
  requestBody E config history = Ok r →
  messages r = map (fun msg => (role msg, content msg)) history.
Proof.
  unfold requestBody. destruct config; simpl; try done; by intros [= <-].
Qed.

(** Building the request throws only when [config] is [undefined] or
    [null], which [configStore.config] never is. *)
Lemma requestBody_defined (config : value) (history : list message) :
  config ≠ VUndefined → config ≠ VNull →
  ∃ r, requestBody E config history = Ok r.
Proof.
  intros Hu Hn. unfold requestBody. destruct config; simpl; try done; eauto.
Qed.

(** The guard of [sendMessage]: blank content, or a call in flight. *)
Lemma sendMessage_rejected (config : value) (content now now' : jsstring)
    (st : store) :
  trim content = [] ∨ isLoading st = true →
  sendMessage E config content now now' st = (st, Fulfilled VUndefined).
Proof.
  unfold sendMessage. intros [-> | ->]; simpl; [done|].
  by rewrite orb_true_r.
Qed.

Lemma sendMessage_accepted (config : value) (content now now' : jsstring)
    (st : store) :
  trim content ≠ [] → isLoading st = false →
  sendMessage E config content now now' st
  = let st1 :=
      setLoading true (push (units "user") (VStr (trim content)) now st) in
    match requestBody E config (chatHistory st1) with
    | Ok r => (st1, Awaiting r)
    | Throw message => (finish (Throw message) now' st1, Fulfilled VUndefined)
    end.
Proof.
  intros Hc Hl. unfold sendMessage. rewrite Hl. simpl.
  by rewrite bool_decide_eq_false_2.
Qed.

(** An accepted call appends the user message, and nothing before it
    changes. *)
Lemma sendMessage_accepted_history (config : value)
    (content now now' : jsstring) (st : store) :
  trim content ≠ [] → isLoading st = false →
  let st' := (sendMessage E config content now now' st).1 in
  chatHistory st' !! length (chatHistory st)
  = Some (newMessage (units "user") (VStr (trim content)) now st)
  ∧ take (length (chatHistory st)) (chatHistory st') = chatHistory st.
Proof.
  intros Hc Hl. rewrite sendMessage_accepted by done. cbn zeta.
  destruct (requestBody _ _ _) as [r|e]; cbn.
  - split; [by apply list_lookup_middle | by rewrite take_app_length].
  - rewrite <- app_assoc.
    split; [by apply list_lookup_middle | by rewrite take_app_length].
Qed.

(** [isLoading] after the part of [sendMessage] before the [await]. *)
Lemma sendMessage_isLoading (config : value) (content now now' : jsstring)
    (st st' : store) (p : progress) :
  sendMessage E config content now now' st = (st', p) →
  match p with
  | Awaiting _ => isLoading st = false ∧ isLoading st' = true
  | Fulfilled _ => isLoading st' = isLoading st
  end.
Proof.
  destruct (decide (trim content = [])) as [Hc|Hc];
    [|destruct (isLoading st) eqn:Hl].
  - rewrite sendMessage_rejected by auto. by intros [= <- <-].
  - rewrite sendMessage_rejected by auto. by intros [= <- <-].
  - rewrite sendMessage_accepted by done. simpl.
    destruct (requestBody _ _ _); by intros [= <- <-].
Qed.

(** *** Reading the response *)

Lemma get_length_array (l : list value) :
  JS.get E (VArr l) (units "length")
  = Ok (VNum (inject_Z (Z.of_nat (length l)))).
Proof. reflexivity. Qed.

Lemma get_first_array (l : list value) :
  JS.get E (VArr l) (units "0") = Ok (default VUndefined (head l)).
Proof. by destruct l. Qed.

(** [aiContent] of an object looks at its [choices] and [content] and at
    nothing else. *)
Lemma aiContent_object (m : gmap jsstring value) :
  aiContent E (VObj m)
  = let choices := default VUndefined (m !! units "choices") in
    nonEmpty ←
      (if JS.truthy choices
       then len ← JS.get E choices (units "length"); JS.greaterThanZero E len
       else Ok false);
    if nonEmpty : bool then
      first ← JS.get E choices (units "0");
      msg ← JS.get E first (units "message");
      JS.get E msg (units "content")
    else
      let content := default VUndefined (m !! units "content") in
      if JS.truthy content then Ok content else Ok (VStr []).
Proof. reflexivity. Qed.

Lemma aiContent_choices (m first msg : gmap jsstring value)
    (rest : list value) (text : value) :
  m !! units "choices" = Some (VArr (VObj first :: rest)) →
  first !! units "message" = Some (VObj msg) →
  msg !! units "content" = Some text →
  aiContent E (VObj m) = Ok text.
Proof.
  intros Hm Hf Hc. rewrite aiContent_object, Hm. cbn zeta.
  cbn [default from_option Datatypes.id JS.truthy].
  rewrite get_length_array, get_first_array.
  cbn [mbind result_bind JS.greaterThanZero JS.stringPositive inject_Z Qnum
       length head default from_option Datatypes.id].
  replace (0 <? Z.of_nat (S (length rest)))%Z with true
    by (symmetry; apply Z.ltb_lt; lia).
  rewrite get_object, Hf.
  cbn [mbind result_bind default from_option Datatypes.id].
  by rewrite get_object, Hc.
Qed.

Lemma aiContent_no_choices (m : gmap jsstring value) :
  m !! units "choices" = None ∨ m !! units "choices" = Some (VArr []) →
  aiContent E (VObj m)
  = let content := default VUndefined (m !! units "content") in
    if JS.truthy content then Ok content else Ok (VStr []).
Proof. rewrite aiContent_object. by intros [-> | ->]. Qed.

Lemma resume_reply (o : outcome) (now : jsstring) (st : store) (text : value) :
  reply (received E o) = text →
  sendMessage_resume E o now st
  = ({| chatHistory :=
          chatHistory st ++ [newMessage (units "assistant") text now st];
        isLoading := false;
        messageCounter := (messageCounter st + 1)%N |},
     VUndefined).
Proof.
  intros <-. unfold sendMessage_resume. by destruct (received E o).
Qed.

(** C2 (as amended).  The store knows two shapes and tries them in this
    order: a body with a non-empty [choices] array, of which
    [choices[0].message.content] is the reply whatever else the body
    holds; then a body without [choices] (or with an empty array), of
    which a [content] string is the reply.  The reply is pushed as the
    assistant message.  There is no third shape: [status], [msg] and [body]
    play no part. *)
Theorem recognized_shapes_yield_their_text (body text : value)
    (now : jsstring) (st : store) :
  OpenAICompatible body text
  ∨ (∃ m s, body = VObj m
            ∧ (m !! units "choices" = None
               ∨ m !! units "choices" = Some (VArr []))
            ∧ Simplified body s
            ∧ text = VStr s) →
  aiContent E body = Ok text
  ∧ sendMessage_resume E (Resolved body) now st
    = ({| chatHistory :=
            chatHistory st ++ [newMessage (units "assistant") text now st];
          isLoading := false;
          messageCounter := (messageCounter st + 1)%N |},
       VUndefined).
Proof.
  intros Hshape.
  assert (Hc : aiContent E body = Ok text).
  { destruct Hshape as [(m & first & rest & msg & -> & Hm & Hf & Hc)
                       |(m & s & -> & Hm & (m' & [= <-] & Hs) & ->)].
    - by eapply aiContent_choices.
    - rewrite aiContent_no_choices, Hs by done. cbn.
      by case_bool_decide; subst. }
  split; [done|]. apply resume_reply. cbn. by rewrite Hc.
Qed.

(** C3 (as amended).  A body that is neither shape is not a failure to the
    store: an object without [choices] (or with an empty array) and without
    [content], as [{"foo": "bar"}], and likewise a body that is no object
    at all but text, a number, a boolean or an array, makes [aiContent] the
    empty string, which is pushed as the assistant message; nothing of the
    body is kept. *)
Theorem unrecognized_body_yields_empty_reply (body : value) (now : jsstring)
    (st : store) :
  match body with
  | VObj m =>
      (m !! units "choices" = None ∨ m !! units "choices" = Some (VArr []))
      ∧ m !! units "content" = None
  | VUndefined | VNull => False
  | _ => True
  end →
  aiContent E body = Ok (VStr [])
  ∧ sendMessage_resume E (Resolved body) now st
    = ({| chatHistory :=
            chatHistory st
            ++ [newMessage (units "assistant") (VStr []) now st];
          isLoading := false;
          messageCounter := (messageCounter st + 1)%N |},
       VUndefined).
Proof.
  intros Hbody.
  assert (Hc : aiContent E body = Ok (VStr [])).
  { destruct body as [| | | | | |m]; try done.
    destruct Hbody as [Hm Hnone].
    by rewrite aiContent_no_choices, Hnone. }
  split; [done|]. apply resume_reply. cbn. by rewrite Hc.
Qed.

(** C4 (as amended).  The fields [status], [msg] and [body] of an envelope
    are never read: setting them to anything, a failure status and a
    message about an expired token included, changes neither [aiContent]
    nor what is pushed; an envelope of these three fields alone gives the
    empty reply, not an error of any kind. *)
Theorem envelope_fields_are_not_inspected (m : gmap jsstring value)
    (status msg inner : value) (now : jsstring) (st : store) :
  let envelope (m : gmap jsstring value) :=
    VObj (<[units "status" := status]>
          (<[units "msg" := msg]> (<[units "body" := inner]> m))) in
  IflowEnvelope status msg inner (envelope m)
  ∧ aiContent E (envelope m) = aiContent E (VObj m)
  ∧ sendMessage_resume E (Resolved (envelope m)) now st
    = sendMessage_resume E (Resolved (VObj m)) now st
  ∧ aiContent E (envelope ∅) = Ok (VStr [])
  ∧ chatHistory (sendMessage_resume E (Resolved (envelope ∅)) now st).1
    = chatHistory st ++ [newMessage (units "assistant") (VStr []) now st].
Proof.
  intros envelope.
  assert (Hsame : ∀ m', aiContent E (envelope m') = aiContent E (VObj m')).
  { intros m'. unfold envelope. rewrite !aiContent_object.
    by rewrite !lookup_insert_ne. }
  assert (Hempty : aiContent E (envelope ∅) = Ok (VStr [])).
  { by rewrite Hsame. }
  split; [|split; [|split; [|split]]].
  - exists (<[units "status" := status]>
            (<[units "msg" := msg]> (<[units "body" := inner]> m))).
    split; [done|]. split; [apply lookup_insert_eq|]. split.
    + rewrite lookup_insert_ne by done. apply lookup_insert_eq.
    + do 2 rewrite lookup_insert_ne by done. apply lookup_insert_eq.
  - apply Hsame.
  - unfold sendMessage_resume, received. by rewrite Hsame.
  - apply Hempty.
  - unfold sendMessage_resume, received. rewrite Hempty. cbn [fst].
    by rewrite finish_history.
Qed.

(** *** Sending *)

(** C1 (as amended).  When the request is rejected (a status outside 2xx, a
    transport error, the timeout), the catch block pushes one assistant
    message whose content is ['API调用失败: '] followed by the message of
    the error; [sendMessage] itself is fulfilled with [undefined], so this
    entry is how the caller learns of the failure.  The entry is an
    ordinary part of the history: the next request carries it among its
    [messages]. *)
Theorem failed_call_is_recorded_in_history (message now : jsstring)
    (st : store) (config : value) (content t t' : jsstring) :
  trim content ≠ [] → config ≠ VUndefined → config ≠ VNull →
  let error :=
    newMessage (units "assistant") (VStr (failurePrefix ++ message)) now st in
  sendMessage_resume E (Rejected message) now st
  = ({| chatHistory := chatHistory st ++ [error];
        isLoading := false;
        messageCounter := (messageCounter st + 1)%N |},
     VUndefined)
  ∧ ∃ st' r,
      sendMessage E config content t t'
        (sendMessage_resume E (Rejected message) now st).1
      = (st', Awaiting r)
      ∧ (units "assistant", VStr (failurePrefix ++ message)) ∈ messages r.
Proof.
  intros Hc Hu Hn error.
  split; [by apply resume_reply|].
  rewrite sendMessage_accepted by done. cbn zeta.
  destruct (requestBody_defined config
    (chatHistory (setLoading true (push (units "user") (VStr (trim content)) t
       (sendMessage_resume E (Rejected message) now st).1))) Hu Hn)
    as [r Hr].
  rewrite Hr. do 2 eexists. split; [reflexivity|].
  rewrite (requestBody_messages _ _ _ Hr). cbn.
  rewrite !map_app. cbn. set_solver.
Qed.

(** C9 (confirmed).  When [isLoading] is clear and the input is not blank,
    the user message pushed carries [content.trim()]: the input without
    the white space at its two ends, which differs from the input whenever
    there is any. *)
Theorem user_message_carries_trimmed_content (config : value)
    (content now now' : jsstring) (st : store) :
  trim content ≠ [] → isLoading st = false →
  let st' := (sendMessage E config content now now' st).1 in
  chatHistory st' !! length (chatHistory st)
  = Some {| id := units "msg_" ++ decimal (messageCounter st);
            role := units "user";
            content := VStr (trim content);
            timestamp := now |}
  ∧ take (length (chatHistory st)) (chatHistory st') = chatHistory st
  ∧ ∃ l r,
      content = l ++ trim content ++ r
      ∧ Forall (fun c => isWhiteSpace c = true) l
      ∧ Forall (fun c => isWhiteSpace c = true) r
      ∧ (∀ c, head (trim content) = Some c → isWhiteSpace c = false)
      ∧ (∀ c, last (trim content) = Some c → isWhiteSpace c = false).
Proof.
  intros Hc Hl st'.
  destruct (sendMessage_accepted_history config content now now' st Hc Hl)
    as [Hat Hbefore].
  split; [exact Hat|]. split; [exact Hbefore|]. apply trim_spec.
Qed.

End ChatFacts.

(** ** Sessions *)

Section SessionFacts.

Import Str Chat Session.

Variable E : engine.

Lemma step_balanced (w w' : world) (e : event) :
  balanced w → step E w e = Some w' → balanced w'.
Proof.
  unfold balanced. intros Hw. destruct e as [config content now now'|o now| |];
    simpl.
  - destruct (sendMessage _ _ _ _ _ _) as [st p] eqn:Hs.
    apply sendMessage_isLoading in Hs.
    destruct p; intros [= <-]; simpl.
    + by rewrite Hs.
    + destruct Hs as [H0 H1]. rewrite H0 in Hw. by rewrite Hw, H1.
  - destruct (inFlight w) as [|n] eqn:Hn; [done|].
    intros [= <-]. simpl. destruct (isLoading (current w)); congruence.
  - by intros [= <-].
  - by intros [= <-].
Qed.

Lemma run_balanced (es : list event) (w w' : world) :
  balanced w → run E w es = Some w' → balanced w'.
Proof.
  revert w. induction es as [|e es IH]; simpl; intros w Hw.
  - by intros [= <-].
  - destruct (step E w e) as [w1|] eqn:Hstep; simpl; [|done].
    apply IH. by eapply step_balanced.
Qed.

Lemma start_balanced : balanced start.
Proof. reflexivity. Qed.

(** C7 (confirmed).  In every state a session can reach, either no call is
    in flight and [isLoading] is clear, so that a send of non-blank content
    is accepted; or exactly one call is in flight, and however its request
    settles (a response of any shape, a status outside 2xx, a transport
    error, the timeout), [isLoading] is clear when [sendMessage] is done. *)
Theorem sendMessage_returns_to_idle (es : list event) (w : world) :
  run E start es = Some w →
  (isLoading (current w) = true →
     inFlight w = 1
     ∧ ∀ o now, ∃ w',
         step E w (Settle o now) = Some w'
         ∧ isLoading (current w') = false
         ∧ inFlight w' = 0)
  ∧ (isLoading (current w) = false →
     inFlight w = 0
     ∧ ∀ config content now now',
         trim content ≠ [] →
         chatHistory (sendMessage E config content now now' (current w)).1
         !! length (chatHistory (current w))
         = Some (newMessage (units "user") (VStr (trim content)) now
                   (current w))).
Proof.
  intros Hrun. pose proof (run_balanced _ _ _ start_balanced Hrun) as Hb.
  unfold balanced in Hb. split; intros Hl; rewrite Hl in Hb.
  - split; [done|]. intros o now. simpl. rewrite Hb. eauto.
  - split; [done|]. intros config content now now' Hc.
    by apply sendMessage_accepted_history.
Qed.

(** C5 (as amended).  While [isLoading] is set, a further call of
    [sendMessage] returns at once with [undefined], no failure value of
    any kind, and changes nothing: not the history, not the counter, and no
    request is posted or queued. *)
Theorem send_while_loading_is_ignored (w : world) (config : value)
    (content now now' : jsstring) :
  isLoading (current w) = true →
  sendMessage E config content now now' (current w)
  = (current w, Fulfilled VUndefined)
  ∧ step E w (Send config content now now') = Some w.
Proof.
  intros Hl. assert (Hs := sendMessage_rejected E config content now now'
                             (current w) (or_intror Hl)).
  split; [done|]. simpl. rewrite Hs. by destruct w.
Qed.

(** C6 (as amended).  [clearHistory] and [newConversation] empty the list
    and leave [isLoading] and the call in flight alone; there is no
    generation counter.  When the request of a call made before the clear
    settles, its message (the reply, or the error) is pushed onto the
    cleared list, which then holds that message alone. *)
Theorem reply_after_clear_is_appended (w : world) (e : event) (o : outcome)
    (now : jsstring) :
  inFlight w ≠ 0 →
  e = ClearHistory ∨ e = NewConversation →
  ∃ w1 w2,
    step E w e = Some w1
    ∧ chatHistory (current w1) = []
    ∧ isLoading (current w1) = isLoading (current w)
    ∧ inFlight w1 = inFlight w
    ∧ step E w1 (Settle o now) = Some w2
    ∧ chatHistory (current w2)
      = [newMessage (units "assistant") (reply (received E o)) now
           (current w)].
Proof.
  intros Hn He. destruct (inFlight w) as [|n] eqn:Hw; [done|].
  assert (Hlate : ∀ st,
    chatHistory (sendMessage_resume E o now (clearHistory st)).1
    = [newMessage (units "assistant") (reply (received E o)) now st]).
  { intros st. unfold sendMessage_resume. cbn [fst].
    by rewrite finish_history. }
  destruct He as [-> | ->]; cbn [step]; do 2 eexists;
    (split; [reflexivity|]); cbn [current inFlight]; rewrite Hw;
    repeat (split; [reflexivity|]); apply Hlate.
Qed.

End SessionFacts.

(** ** The configuration store *)

Section ConfigFacts.

Import Str Config.

Variable E : engine.

(** C8 (as amended).  [saveConfig] checks nothing and the store holds one
    record, not a registry keyed by name: every field the update supplies
    is stored as given, an empty [api_url] or a [temperature] or
    [max_tokens] out of range included, at once and whether or not the
    request that saves it succeeds; the record stored is the one posted.
    [saveConfig] returns [true] when the request succeeds and [false], with
    ['保存配置失败: '] and the message of the error in [error], when it
    does not. *)
Theorem saveConfig_stores_without_validation (newConfig : value)
    (st : store) (o : outcome) (k : jsstring) (v : value) :
  JS.spread newConfig !! k = Some v →
  let st1 := (saveConfig newConfig st).1 in
  let st2 := (saveConfig_resume o st1).1 in
  JS.get E (config st1) k = Ok v
  ∧ (saveConfig newConfig st).2 = config st1
  ∧ config st2 = config st1
  ∧ loading st2 = false
  ∧ match o with
    | Resolved _ =>
        (saveConfig_resume o st1).2 = VBool true ∧ error st2 = VNull
    | Rejected message =>
        (saveConfig_resume o st1).2 = VBool false
        ∧ error st2 = VStr (saveFailed ++ message)
    end.
Proof.
  intros Hk st1 st2. split.
  - cbn. by rewrite lookup_union_l', Hk by (by rewrite Hk).
  - by destruct o.
Qed.

(** C10 (confirmed).  The record stored by [saveConfig] is the spread of
    the old record overwritten by the spread of the update: a field the
    update does not have keeps the value it had, also after the request
    has settled either way. *)
Theorem saveConfig_keeps_absent_fields (newConfig : value) (st : store)
    (o : outcome) (k : jsstring) :
  JS.spread newConfig !! k = None →
  ∃ m,
    config (saveConfig newConfig st).1 = VObj m
    ∧ m = JS.spread newConfig ∪ JS.spread (config st)
    ∧ m !! k = JS.spread (config st) !! k
    ∧ config (saveConfig_resume o (saveConfig newConfig st).1).1 = VObj m.
Proof.
  intros Hk. eexists. split; [reflexivity|]. split; [reflexivity|]. split.
  - by apply lookup_union_r.
  - by destruct o.
Qed.

End ConfigFacts.

(** ** The claims at concrete inputs *)

Section Concrete.

Import Str Chat Session Sample.

(** C1, as stated, fails.  ["Hello"] is sent and the request is rejected
    with status 401: the history then ends with an assistant message made
    of the error text, and the request of the next send carries it. *)
Lemma failed_call_appends_assistant_message :
  chatHistory sending = [hello]
  ∧ chatHistory (settled status401)
    = [hello;
       answer (VStr (failurePrefix
                     ++ units "Request failed with status code 401"))]
  ∧ ∃ r,
      (sendMessage v8 config (units "And now?") t2 t2 (settled status401)).2
      = Awaiting r
      ∧ messages r
        = [(units "user", str "Hello");
           (units "assistant",
            VStr (failurePrefix
                  ++ units "Request failed with status code 401"));
           (units "user", str "And now?")].
Proof.
  split; [reflexivity|]. split; [reflexivity|].
  eexists. split; vm_compute; reflexivity.
Qed.

Lemma failed_call_is_recorded_in_history_witness :
  trim (units "And now?") ≠ []
  ∧ chatHistory (settled timeout)
    = [hello;
       answer (VStr (failurePrefix ++ units "timeout of 30000ms exceeded"))]
  ∧ ∃ st' r,
      sendMessage v8 config (units "And now?") t2 t2 (settled timeout)
      = (st', Awaiting r)
      ∧ (units "assistant",
         VStr (failurePrefix ++ units "timeout of 30000ms exceeded"))
        ∈ messages r.
Proof.
  assert (Hc : trim (units "And now?") ≠ []) by (by vm_compute).
  split; [exact Hc|].
  destruct (failed_call_is_recorded_in_history v8
              (units "timeout of 30000ms exceeded") t1 sending config
              (units "And now?") t2 t2 Hc) as [Hpush Hnext]; [done..|].
  split; [|exact Hnext].
  unfold settled, timeout. by rewrite Hpush.
Defined.

(** C2, as stated, fails.  An envelope with a success status and the text
    in [body] is given no reply at all, and an envelope that reports a
    failure while holding [choices] is answered from [choices]: the
    envelope is neither recognised nor tried first. *)
Lemma iflow_envelope_is_not_recognized :
  IflowEnvelope (str "0") (str "success") (str "Hi there!") iflow
  ∧ aiContent v8 iflow = Ok (VStr [])
  ∧ chatHistory (settled (Resolved iflow)) = [hello; answer (VStr [])]
  ∧ IflowEnvelope (str "500") (str "model failed") VNull iflowAndChoices
  ∧ aiContent v8 iflowAndChoices = Ok (str "x").
Proof.
  split; [by eexists|]. split; [reflexivity|]. split; [reflexivity|].
  split; [by eexists|]. reflexivity.
Qed.

Lemma recognized_shapes_yield_their_text_witness :
  OpenAICompatible openai (str "Hi there!")
  ∧ aiContent v8 openai = Ok (str "Hi there!")
  ∧ chatHistory (settled (Resolved openai))
    = [hello; answer (str "Hi there!")].
Proof.
  assert (Hs : OpenAICompatible openai (str "Hi there!")).
  { do 4 eexists. split; [reflexivity|]. by vm_compute. }
  split; [exact Hs|].
  destruct (recognized_shapes_yield_their_text v8 openai (str "Hi there!")
              t1 sending (or_introl Hs)) as [Hc Hpush].
  split; [exact Hc|]. unfold settled. by rewrite Hpush.
Defined.

(** C3, as stated, fails.  The body [{"foo": "bar"}] is no failure: the try
    block runs to its end with an empty [aiContent], and the history gains
    an assistant message whose content is the empty string. *)
Lemma unrecognized_body_is_not_a_failure :
  aiContent v8 fooBar = Ok (VStr [])
  ∧ ¬ (∃ message, received v8 (Resolved fooBar) = Throw message)
  ∧ chatHistory (settled (Resolved fooBar)) = [hello; answer (VStr [])].
Proof.
  split; [reflexivity|]. split; [|reflexivity].
  intros [message Hm]. vm_compute in Hm. discriminate.
Qed.

Lemma unrecognized_body_yields_empty_reply_witness :
  aiContent v8 fooBar = Ok (VStr [])
  ∧ chatHistory (settled (Resolved fooBar)) = [hello; answer (VStr [])].
Proof.
  destruct (unrecognized_body_yields_empty_reply v8 fooBar t1 sending)
    as [Hc Hpush].
  { cbn. split; [left|]; by vm_compute. }
  split; [exact Hc|]. unfold settled. by rewrite Hpush.
Defined.

(** C4, as stated, fails.  An envelope with a failure status whose [msg] is
    "Your API Token has expired" is neither an expired-token failure nor
    any other: the try block runs to its end, and the assistant message
    pushed is empty and does not hold the [msg]. *)
Lemma expired_token_is_not_reported :
  IflowEnvelope (str "434") (str "Your API Token has expired") VNull
    tokenExpired
  ∧ aiContent v8 tokenExpired = Ok (VStr [])
  ∧ ¬ (∃ message, received v8 (Resolved tokenExpired) = Throw message)
  ∧ chatHistory (settled (Resolved tokenExpired))
    = [hello; answer (VStr [])].
Proof.
  split; [by eexists|]. split; [reflexivity|]. split; [|reflexivity].
  intros [message Hm]. vm_compute in Hm. discriminate.
Qed.

(** C5, as stated, fails.  While the request of ["Hello"] is in flight a
    second send is fulfilled with [undefined]: the caller is handed no
    failure, of kind [Busy] or any other. *)
Lemma send_while_loading_returns_no_failure :
  isLoading sending = true
  ∧ sendMessage v8 config (units "And now?") t1 t1 sending
    = (sending, Fulfilled VUndefined)
  ∧ ¬ (∃ detail,
         (sendMessage v8 config (units "And now?") t1 t1 sending).2
         = Fulfilled (Failure (units "Busy") detail)).
Proof.
  split; [reflexivity|]. split; [reflexivity|].
  intros [detail Hd]. vm_compute in Hd. discriminate.
Qed.

Lemma send_while_loading_is_ignored_witness :
  isLoading sending = true
  ∧ sendMessage v8 config (units "And now?") t1 t1 sending
    = (sending, Fulfilled VUndefined).
Proof.
  split; [reflexivity|].
  apply (send_while_loading_is_ignored v8
           {| current := sending; inFlight := 1; sent := [] |}).
  reflexivity.
Defined.

(** C6, as stated, fails.  ["Hello"] is sent, the history is cleared while
    the request is in flight, and the reply arrives: the cleared history
    then holds the reply. *)
Lemma late_reply_lands_in_cleared_history :
  (fun w => chatHistory (current w))
    <$> run v8 start [Send config (units "Hello") t0 t0; ClearHistory]
  = Some []
  ∧ (fun w => chatHistory (current w))
      <$> run v8 start [Send config (units "Hello") t0 t0; ClearHistory;
                        Settle (Resolved openai) t1]
    = Some [answer (str "Hi there!")].
Proof. split; reflexivity. Qed.

Lemma reply_after_clear_is_appended_witness :
  ∃ w1 w2,
    step v8 {| current := sending; inFlight := 1; sent := [] |} ClearHistory
    = Some w1
    ∧ step v8 w1 (Settle (Resolved openai) t1) = Some w2
    ∧ chatHistory (current w2) = [answer (str "Hi there!")].
Proof.
  destruct (reply_after_clear_is_appended v8
              {| current := sending; inFlight := 1; sent := [] |}
              ClearHistory (Resolved openai) t1)
    as (w1 & w2 & H1 & _ & _ & _ & H2 & Hh); [done|by left|].
  exists w1, w2. split; [exact H1|]. split; [exact H2|].
  rewrite Hh. reflexivity.
Defined.

Lemma sendMessage_returns_to_idle_witness :
  ∃ w,
    run v8 start [Send config (units "Hello") t0 t0] = Some w
    ∧ isLoading (current w) = true
    ∧ inFlight w = 1
    ∧ ∃ w',
        step v8 w (Settle timeout t1) = Some w'
        ∧ isLoading (current w') = false
        ∧ inFlight w' = 0.
Proof.
  eexists. split; [reflexivity|]. split; [reflexivity|].
  edestruct (sendMessage_returns_to_idle v8
               [Send config (units "Hello") t0 t0]) as [Hbusy _];
    [reflexivity|].
  destruct (Hbusy eq_refl) as [H1 Hsettle]. split; [exact H1|].
  apply Hsettle.
Defined.

Lemma user_message_carries_trimmed_content_witness :
  trim (units "  Hello ") = units "Hello"
  ∧ chatHistory
      (sendMessage v8 config (units "  Hello ") t0 t0 initial).1 !! 0
    = Some hello.
Proof.
  split; [reflexivity|].
  destruct (user_message_carries_trimmed_content v8 config
              (units "  Hello ") t0 t0 initial) as [Hat _];
    [by vm_compute|reflexivity|].
  exact Hat.
Defined.

(** C8, as stated, fails.  A record with an empty [api_url], a
    [temperature] of 5 and [max_tokens] of 0 is stored as it is, and
    [saveConfig] returns [true] once the request has succeeded. *)
Lemma saveConfig_accepts_invalid_record :
  JS.get v8 (Config.config (Config.saveConfig invalid Config.initial).1)
    (units "api_url") = Ok (VStr [])
  ∧ JS.get v8 (Config.config (Config.saveConfig invalid Config.initial).1)
      (units "temperature") = Ok (VNum (5 # 1))
  ∧ JS.get v8 (Config.config (Config.saveConfig invalid Config.initial).1)
      (units "max_tokens") = Ok (VNum (0 # 1))
  ∧ Config.config (Config.saveConfig invalid Config.initial).1
    ≠ Config.config Config.initial
  ∧ Config.saveConfig_resume saved
      (Config.saveConfig invalid Config.initial).1
    = ({| Config.config :=
            Config.config (Config.saveConfig invalid Config.initial).1;
          Config.models := VObj ∅;
          Config.loading := false;
          Config.error := VNull |},
       VBool true).
Proof.
  split; [reflexivity|]. split; [reflexivity|]. split; [reflexivity|].
  split; [|reflexivity]. by vm_compute.
Qed.

Lemma saveConfig_stores_without_validation_witness :
  JS.spread invalid !! units "temperature" = Some (VNum (5 # 1))
  ∧ JS.get v8 (Config.config (Config.saveConfig invalid Config.initial).1)
      (units "temperature") = Ok (VNum (5 # 1)).
Proof.
  assert (Hk : JS.spread invalid !! units "temperature" = Some (VNum (5 # 1)))
    by reflexivity.
  split; [exact Hk|].
  apply (saveConfig_stores_without_validation v8 invalid Config.initial
           saved (units "temperature") (VNum (5 # 1)) Hk).
Defined.

Lemma saveConfig_keeps_absent_fields_witness :
  JS.spread invalid !! units "model" = None
  ∧ ∃ m,
      Config.config (Config.saveConfig invalid Config.initial).1 = VObj m
      ∧ m !! units "model" = Some (VStr []).
Proof.
  assert (Hk : JS.spread invalid !! units "model" = None) by reflexivity.
  split; [exact Hk|].
  destruct (saveConfig_keeps_absent_fields invalid Config.initial saved
              (units "model") Hk) as (m & Hm & _ & Hkeep & _).
  exists m. split; [exact Hm|]. rewrite Hkeep. reflexivity.
Defined.

End Concrete.

(** * Further properties of the stores *)

(** ** The configuration store: [loadConfig], [switchModel], sessions *)

Section ConfigExtra.

Import Str Config.

Variable E : engine.

Lemma orElse_truthy (a b : value) :
  JS.truthy b = true → JS.truthy (orElse a b) = true.
Proof. unfold orElse. by destruct (JS.truthy a) eqn:Ha. Qed.

(** Reading a property throws for [undefined] and [null] and for nothing
    else. *)
Lemma get_defined (v : value) (p q : jsstring) (x : value) :
  JS.get E v p = Ok x → ∃ y, JS.get E v q = Ok y.
Proof. destruct v; simpl; try done; eauto. Qed.

Lemma get_truthy (v : value) (p : jsstring) :
  JS.truthy v = true → ∃ x, JS.get E v p = Ok x.
Proof. destruct v; simpl; try done; eauto. Qed.



(** X4.  Saves compose: two saves in a row store what one save of the two
    updates merged stores, the later update winning, whatever became of the
    request of the first; and saving the same update again changes
    nothing. *)
Theorem saveConfig_composes (a b : value) (o : outcome) (st : store) :
  let st1 := (saveConfig_resume o (saveConfig a st).1).1 in
  config (saveConfig b st1).1
  = config (saveConfig (VObj (JS.spread b ∪ JS.spread a)) st).1
  ∧ config (saveConfig a st1).1 = config (saveConfig a st).1.
Proof.
  assert (Hst1 : config (saveConfig_resume o (saveConfig a st).1).1
                 = VObj (JS.spread a ∪ JS.spread (config st)))
    by (by destruct o).
  assert (Hsave : ∀ c s, config (saveConfig c s).1
                         = VObj (JS.spread c ∪ JS.spread (config s)))
    by done.
  cbn zeta. rewrite !Hsave, Hst1. cbn [JS.spread]. split.
  - by rewrite (assoc_L (∪)).
  - by rewrite (assoc_L (∪)), (idemp_L (∪)).
Qed.

(** X5.  What [saveConfig] posts is what it stores, and a later
    [loadConfig] whose response carries that record back stores it
    again unchanged. *)
Theorem saved_config_reloads (newConfig : value) (st st' : store)
    (data : value) :
  JS.get E data (units "config") = Ok (saveConfig newConfig st).2 →
  (saveConfig newConfig st).2 = config (saveConfig newConfig st).1
  ∧ config (loadConfig_resume E (Resolved data) (loadConfig st')).1
    = config (saveConfig newConfig st).1
  ∧ (loadConfig_resume E (Resolved data) (loadConfig st')).2 = VBool true.
Proof.
  intros Hc. split; [done|]. unfold loadConfig_resume. rewrite Hc.
  destruct (get_defined _ _ (units "model_configs") _ Hc) as [mc ->].
  by cbn.
Qed.

End ConfigExtra.

Section ConfigSessionFacts.

Import Str Config ConfigSession.

Variable E : engine.

Lemma resume_truthy (a : action) (o : outcome) (st : store) :
  JS.truthy (config st) = true → JS.truthy (models st) = true →
  JS.truthy (config (resume E a o st).1) = true
  ∧ JS.truthy (models (resume E a o st).1) = true.
Proof.
  intros Hc Hm. destruct a; cbn [resume].
  - destruct o as [data|message]; unfold loadConfig_resume; [|done].
    destruct (JS.get E data (units "config")) as [c|] eqn:Hget; [|done].
    destruct (get_defined E _ _ (units "model_configs") _ Hget) as [mc ->].
    cbn. split; by apply orElse_truthy.
  - by destruct o.
  - destruct o as [data|message]; unfold switchModel_resume; [|done].
    destruct (JS.get E data (units "config")) as [c|]; [|done].
    cbn. split; [by apply orElse_truthy|done].
Qed.

Lemma step_truthy (w w' : world) (e : event) :
  JS.truthy (config (current w)) = true →
  JS.truthy (models (current w)) = true →
  step E w e = Some w' →
  JS.truthy (config (current w')) = true
  ∧ JS.truthy (models (current w')) = true.
Proof.
  intros Hc Hm. destruct e as [|newConfig|modelName|i o]; cbn [step].
  - by intros [= <-].
  - by intros [= <-].
  - by intros [= <-].
  - destruct (pending w !! i) as [a|]; [|done]. intros [= <-].
    by apply resume_truthy.
Qed.

(** X1.  Whatever the store's actions and their requests do, in any order,
    [config] and [models] never hold [undefined], [null] or anything else
    falsy.  So [sendMessage] of the chat store, which reads its request
    from [configStore.config], never fails before its request is posted:
    a send of non-blank content on an idle chat store always posts. *)
Theorem config_is_never_nullish (es : list event) (w : world) :
  run E start es = Some w →
  JS.truthy (config (current w)) = true
  ∧ JS.truthy (models (current w)) = true
  ∧ ∀ content now now' chat,
      trim content ≠ [] → Chat.isLoading chat = false →
      ∃ chat' r,
        Chat.sendMessage E (config (current w)) content now now' chat
        = (chat', Chat.Awaiting r).
Proof.
  assert (Hrun : ∀ es w0,
    JS.truthy (config (current w0)) = true →
    JS.truthy (models (current w0)) = true →
    run E w0 es = Some w →
    JS.truthy (config (current w)) = true
    ∧ JS.truthy (models (current w)) = true).
  { clear es. induction es as [|e es IH]; cbn [run]; intros w0 Hc Hm.
    - by intros [= <-].
    - destruct (step E w0 e) as [w1|] eqn:Hstep; [|done]. cbn.
      destruct (step_truthy _ _ _ Hc Hm Hstep). by apply IH. }
  intros Hes. destruct (Hrun es start eq_refl eq_refl Hes) as [Hc Hm].
  split; [done|]. split; [done|].
  intros content now now' chat Hcontent Hl.
  rewrite sendMessage_accepted by done. cbn zeta.
  edestruct (requestBody_defined E (config (current w))) as [r ->];
    [by destruct (config (current w))..|].
  eauto.
Qed.

End ConfigSessionFacts.

(** ** The chat store: edge cases of [sendMessage] *)

Section ChatExtra.

Import Str Chat.

Variable E : engine.

Lemma trimStart_blank (s : jsstring) :
  Forall (fun c => isWhiteSpace c = true) s → trimStart s = [].
Proof. induction 1 as [|c s Hc _ IH]; simpl; [done|]. by rewrite Hc. Qed.

Lemma trimStart_fixed (s : jsstring) :
  (∀ c, head s = Some c → isWhiteSpace c = false) → trimStart s = s.
Proof. destruct s as [|c s]; simpl; [done|]. intros H. by rewrite H. Qed.

(** [trim] leaves nothing exactly of the strings made of white space. *)
Lemma trim_nil_iff (s : jsstring) :
  trim s = [] ↔ Forall (fun c => isWhiteSpace c = true) s.
Proof.
  split.
  - intros Ht. destruct (trim_spec s) as (l & r & Hs & Hl & Hr & _).
    rewrite Hs, Ht. by apply Forall_app.
  - intros Hs. unfold trim. by rewrite trimStart_blank.
Qed.

Lemma trim_idempotent (s : jsstring) : trim (trim s) = trim s.
Proof.
  destruct (trim_spec s) as (_ & _ & _ & _ & _ & Hhead & Hlast).
  unfold trim at 1. rewrite trimStart_fixed by done.
  unfold trimEnd. rewrite trimStart_fixed.
  - apply reverse_involutive.
  - intros c. rewrite head_reverse. apply Hlast.
Qed.

Lemma finish_push (r : result value) (now : jsstring) (st : store) :
  finish r now st
  = setLoading false (push (units "assistant") (reply r) now st).
Proof. by destruct r. Qed.

(** The three ways the part of [sendMessage] before the [await] can go. *)
Lemma sendMessage_cases (config : value) (content now now' : jsstring)
    (st st' : store) (p : progress) :
  sendMessage E config content now now' st = (st', p) →
  let st1 :=
    setLoading true (push (units "user") (VStr (trim content)) now st) in
  (st' = st ∧ p = Fulfilled VUndefined
   ∧ (trim content = [] ∨ isLoading st = true))
  ∨ (trim content ≠ [] ∧ isLoading st = false
     ∧ ((∃ r, requestBody E config (chatHistory st1) = Ok r
              ∧ st' = st1 ∧ p = Awaiting r)
        ∨ (∃ message, requestBody E config (chatHistory st1) = Throw message
                      ∧ st' = finish (Throw message) now' st1
                      ∧ p = Fulfilled VUndefined))).
Proof.
  intros Hs st1.
  destruct (decide (trim content = [])) as [Hc|Hc];
    [|destruct (isLoading st) eqn:Hl].
  - rewrite sendMessage_rejected in Hs by auto. injection Hs as <- <-. auto.
  - rewrite sendMessage_rejected in Hs by auto. injection Hs as <- <-. auto.
  - rewrite sendMessage_accepted in Hs by done. cbn zeta in Hs. fold st1 in Hs.
    right. split; [done|]. split; [done|].
    destruct (requestBody E config (chatHistory st1)) as [r|message];
      injection Hs as <- <-; eauto.
Qed.

(** X6.  [sendMessage] does nothing at all, and is fulfilled at once,
    exactly when the input is empty or made of white space only, or a call
    is in flight; in every other case the history grows. *)
Theorem sendMessage_ignores_blank_or_busy (config : value)
    (content now now' : jsstring) (st : store) :
  sendMessage E config content now now' st = (st, Fulfilled VUndefined)
  ↔ Forall (fun c => isWhiteSpace c = true) content ∨ isLoading st = true.
Proof.
  rewrite <- trim_nil_iff. split.
  - intros Hs. destruct (sendMessage_cases _ _ _ _ _ _ _ Hs)
      as [(_ & _ & H)|(Hc & Hl & [(r & _ & _ & [=])|(m & _ & Hst & _)])];
      [done|].
    apply (f_equal (fun s => length (chatHistory s))) in Hst.
    rewrite finish_history in Hst. cbn in Hst.
    rewrite !length_app in Hst. cbn in Hst. lia.
  - apply sendMessage_rejected.
Qed.

(** X7.  The request of an accepted send carries the fields of the
    configuration as they are read at that moment and the whole history,
    oldest first and ending with the message just typed, each message cut
    down to its role and content: nothing is truncated, summarised or left
    out, error messages included. *)
Theorem request_carries_whole_history (config : value)
    (content now now' : jsstring) (st st' : store) (r : request) :
  sendMessage E config content now now' st = (st', Awaiting r) →
  messages r
  = map (fun msg => (role msg, Chat.content msg)) (chatHistory st)
    ++ [(units "user", VStr (trim content))]
  ∧ messages r
    = map (fun msg => (role msg, Chat.content msg)) (chatHistory st')
  ∧ JS.get E config (units "api_url") = Ok (api_url r)
  ∧ JS.get E config (units "api_key") = Ok (api_key r)
  ∧ JS.get E config (units "model") = Ok (model r)
  ∧ JS.get E config (units "temperature") = Ok (temperature r)
  ∧ JS.get E config (units "max_tokens") = Ok (max_tokens r).
Proof.
  intros Hs. destruct (sendMessage_cases _ _ _ _ _ _ _ Hs)
    as [(_ & [=] & _)|(Hc & Hl & [(r' & Hr & -> & [= <-])|(m & _ & _ & [=])])].
  pose proof (requestBody_messages _ _ _ _ Hr) as Hm.
  split; [|split; [done|]].
  - rewrite Hm. cbn. by rewrite map_app.
  - clear Hm Hs. unfold requestBody in Hr.
    destruct (JS.get E config (units "api_url")) as [x1|]; [|done].
    destruct (JS.get E config (units "api_key")) as [x2|]; [|done].
    destruct (JS.get E config (units "model")) as [x3|]; [|done].
    destruct (JS.get E config (units "temperature")) as [x4|]; [|done].
    destruct (JS.get E config (units "max_tokens")) as [x5|]; [|done].
    by injection Hr as <-.
Qed.

(** X8.  A body whose [choices] is a non-empty array is never read for its
    top-level [content]: when the first choice is [null], or has no
    [message] (or a [null] one), reading it throws, and the store pushes an
    error message made of the engine's text instead of a reply. *)
Theorem malformed_choice_is_an_error (m : gmap jsstring value)
    (first : value) (rest : list value) (message now : jsstring)
    (st : store) :
  m !! units "choices" = Some (VArr (first :: rest)) →
  (first = VNull ∧ message = cannotRead E VNull (units "message"))
  ∨ (∃ missing,
       JS.get E first (units "message") = Ok missing
       ∧ (missing = VUndefined ∨ missing = VNull)
       ∧ message = cannotRead E missing (units "content")) →
  aiContent E (VObj m) = Throw message
  ∧ chatHistory (sendMessage_resume E (Resolved (VObj m)) now st).1
    = chatHistory st
      ++ [newMessage (units "assistant") (VStr (failurePrefix ++ message))
            now st].
Proof.
  intros Hm Hfirst.
  assert (Hc : aiContent E (VObj m) = Throw message).
  { rewrite aiContent_object, Hm. cbn zeta.
    cbn [default from_option Datatypes.id JS.truthy].
    rewrite get_length_array, get_first_array.
    cbn [mbind result_bind JS.greaterThanZero JS.stringPositive inject_Z Qnum
         length head default from_option Datatypes.id].
    replace (0 <? Z.of_nat (S (length rest)))%Z with true
      by (symmetry; apply Z.ltb_lt; lia).
    destruct Hfirst as [[-> ->]|(missing & -> & [-> | ->] & ->)]; done. }
  split; [done|].
  unfold sendMessage_resume, received. rewrite Hc. cbn [fst].
  by rewrite finish_history.
Qed.

(** X9.  A first choice whose [message] is an object without [content] is
    no error: [aiContent] is [undefined], and the assistant message pushed
    has [undefined] for its content. *)
Theorem choice_without_content_is_undefined (m first msg : gmap jsstring value)
    (rest : list value) (now : jsstring) (st : store) :
  m !! units "choices" = Some (VArr (VObj first :: rest)) →
  first !! units "message" = Some (VObj msg) →
  msg !! units "content" = None →
  aiContent E (VObj m) = Ok VUndefined
  ∧ chatHistory (sendMessage_resume E (Resolved (VObj m)) now st).1
    = chatHistory st ++ [newMessage (units "assistant") VUndefined now st].
Proof.
  intros Hm Hf Hc.
  assert (Ha : aiContent E (VObj m) = Ok VUndefined).
  { rewrite aiContent_object, Hm. cbn zeta.
    cbn [default from_option Datatypes.id JS.truthy].
    rewrite get_length_array, get_first_array.
    cbn [mbind result_bind JS.greaterThanZero JS.stringPositive inject_Z Qnum
         length head default from_option Datatypes.id].
    replace (0 <? Z.of_nat (S (length rest)))%Z with true
      by (symmetry; apply Z.ltb_lt; lia).
    rewrite get_object, Hf.
    cbn [mbind result_bind default from_option Datatypes.id].
    by rewrite get_object, Hc. }
  split; [done|].
  unfold sendMessage_resume, received. rewrite Ha. cbn [fst].
  by rewrite finish_history.
Qed.

End ChatExtra.

(** ** Sessions of the chat store: what every reachable history looks like *)

Section SessionExtra.

Import Str Chat Session.

Variable E : engine.

(** What one event does to the store and to the requests posted. *)
Lemma step_cases (w w' : world) (e : event) :
  step E w e = Some w' →
  (current w' = current w ∧ sent w' = sent w)
  ∨ (∃ text now r,
       trim text ≠ [] ∧ isLoading (current w) = false
       ∧ current w'
         = setLoading true
             (push (units "user") (VStr (trim text)) now (current w))
       ∧ sent w' = sent w ++ [r]
       ∧ messages r
         = map (fun msg => (role msg, content msg)) (chatHistory (current w')))
  ∨ (∃ text now now' message,
       trim text ≠ [] ∧ isLoading (current w) = false
       ∧ current w'
         = finish (Throw message) now'
             (setLoading true
                (push (units "user") (VStr (trim text)) now (current w)))
       ∧ sent w' = sent w)
  ∨ (∃ r now,
       inFlight w ≠ 0 ∧ clears e = false
       ∧ current w' = finish r now (current w) ∧ sent w' = sent w)
  ∨ (clears e = true
     ∧ current w' = clearHistory (current w) ∧ sent w' = sent w).
Proof.
  destruct e as [config text now now'|o now| |]; cbn [step].
  - destruct (sendMessage E config text now now' (current w)) as [st p]
      eqn:Hs.
    destruct (sendMessage_cases E _ _ _ _ _ _ _ Hs)
      as [(-> & -> & _)
         |(Hc & Hl & [(r & Hr & -> & ->)|(m & _ & -> & ->)])];
      intros [= <-]; cbn.
    + auto.
    + right. left. exists text, now, r. repeat (split; [done|]).
      by apply (requestBody_messages E _ _ _ Hr).
    + right. right. left. exists text, now, now', m. auto.
  - destruct (inFlight w) as [|n] eqn:Hn; [done|]. intros [= <-]. cbn.
    right. right. right. left. exists (received E o), now. auto.
  - intros [= <-]. cbn. right. right. right. right. auto.
  - intros [= <-]. cbn. right. right. right. right. auto.
Qed.

(** Induction over the states a session goes through, for sessions whose
    events all satisfy [Q]. *)
Lemma run_invariant (Q : event → Prop) (P : world → Prop) :
  (∀ w e w', Q e → balanced w → P w → step E w e = Some w' → P w') →
  ∀ es w w',
    Forall Q es → balanced w → P w → run E w es = Some w' → P w'.
Proof.
  intros Hstep. induction es as [|e es IH]; cbn [run]; intros w w' HQ Hb HP.
  - by intros [= <-].
  - destruct (step E w e) as [w1|] eqn:Hs; [|done]. cbn.
    inversion HQ as [|? ? He Hes]; subst.
    apply IH; [done|by eapply step_balanced|by eapply Hstep].
Qed.

Lemma digits_inj (u u' : Decimal.uint) : digits u = digits u' → u = u'.
Proof.
  revert u'.
  induction u as [|u IH|u IH|u IH|u IH|u IH|u IH|u IH|u IH|u IH|u IH];
    intros [|u'|u'|u'|u'|u'|u'|u'|u'|u'|u']; cbn; try done;
    intros [= H]; f_equal; by apply IH.
Qed.

Lemma decimal_inj (k k' : N) : decimal k = decimal k' → k = k'.
Proof. intros H. by apply DecimalN.Unsigned.to_uint_inj, digits_inj. Qed.

Lemma numbered_push (r : jsstring) (c : value) (now : jsstring) (st : store) :
  numbered st → numbered (push r c now st).
Proof.
  intros (ks & Hids & Hnd & Hlt). exists (ks ++ [messageCounter st]).
  cbn. rewrite !map_app, Hids. split; [done|]. split.
  - apply NoDup_app. split; [done|]. split; [|apply NoDup_singleton].
    intros k Hk ->%list_elem_of_singleton.
    rewrite Forall_forall in Hlt. specialize (Hlt _ Hk). lia.
  - apply Forall_app. split.
    + eapply Forall_impl; [exact Hlt|]. cbn. lia.
    + apply Forall_singleton. lia.
Qed.

Lemma numbered_ids (st : store) :
  numbered st →
  NoDup (map id (chatHistory st))
  ∧ Forall (fun msg => ∃ k, (k < messageCounter st)%N
                           ∧ id msg = units "msg_" ++ decimal k)
      (chatHistory st).
Proof.
  intros (ks & Hids & Hnd & Hlt). split.
  - rewrite Hids.
    assert (Hinj : Inj (=) (=) (fun k => units "msg_" ++ decimal k)).
    { intros k k' H. by apply app_inv_head, decimal_inj in H. }
    by apply (NoDup_fmap_2 (fun k => units "msg_" ++ decimal k)).
  - clear Hnd. revert ks Hids Hlt.
    induction (chatHistory st) as [|msg h IH]; intros [|k ks]; cbn; try done.
    intros [= Hid Hids] Hlt. inversion Hlt; subst. constructor; eauto.
Qed.

Lemma session_numbered (es : list event) (w : world) :
  run E start es = Some w → numbered (current w).
Proof.
  intros Hrun.
  apply (run_invariant (fun _ => True) (fun w => numbered (current w)))
    with (es := es) (w := start); try done.
  - clear. intros w e w' _ _ Hw Hstep.
    destruct (step_cases _ _ _ Hstep)
      as [[-> _]|[(c & now & r & _ & _ & -> & _)
         |[(c & now & now' & m & _ & _ & -> & _)
         |[(r & now & _ & _ & -> & _)|(_ & -> & _)]]]]; try done.
    + by apply numbered_push.
    + rewrite finish_push.
      by apply (numbered_push _ _ _ (setLoading true _)), numbered_push.
    + rewrite finish_push. by apply numbered_push.
    + destruct Hw as (ks & _ & _ & _). exists []. cbn. split; [done|].
      split; [apply NoDup_nil_2|done].
  - by apply Forall_true.
  - exists []. cbn. split; [done|]. split; [apply NoDup_nil_2|done].
Qed.

(** X10.  Message ids never repeat: in every state a session can reach, the
    ids of the history are pairwise distinct and each is [msg_k] for a [k]
    below [messageCounter].  Clearing the history does not start the
    numbering again. *)
Theorem message_ids_are_unique (es : list event) (w : world) :
  run E start es = Some w →
  NoDup (map id (chatHistory (current w)))
  ∧ Forall (fun msg => ∃ k, (k < messageCounter (current w))%N
                           ∧ id msg = units "msg_" ++ decimal k)
      (chatHistory (current w)).
Proof. intros Hrun. by eapply numbered_ids, session_numbered. Qed.

Lemma wellFormed_user (text now : jsstring) (st : store) :
  trim text ≠ [] →
  wellFormed (newMessage (units "user") (VStr (trim text)) now st).
Proof.
  intros Hc. right. split; [done|]. exists (trim text).
  split; [done|]. split; [done|]. apply trim_idempotent.
Qed.

Lemma session_wellFormed (es : list event) (w : world) :
  run E start es = Some w →
  Forall wellFormed (chatHistory (current w)).
Proof.
  intros Hrun.
  apply (run_invariant (fun _ => True)
           (fun w => Forall wellFormed (chatHistory (current w))))
    with (es := es) (w := start); try done.
  - clear. intros w e w' _ _ Hw Hstep.
    destruct (step_cases _ _ _ Hstep)
      as [[-> _]|[(c & now & r & Hc & _ & -> & _)
         |[(c & now & now' & m & Hc & _ & -> & _)
         |[(r & now & _ & _ & -> & _)|(_ & -> & _)]]]]; try done.
    + cbn. apply Forall_app. split; [done|].
      apply Forall_singleton. by apply wellFormed_user.
    + rewrite finish_history. cbn. rewrite !Forall_app. split; [split|].
      * done.
      * apply Forall_singleton. by apply wellFormed_user.
      * apply Forall_singleton. by left.
    + rewrite finish_history. apply Forall_app. split; [done|].
      apply Forall_singleton. by left.
  - by apply Forall_true.
Qed.

(** X11.  Every message of every history a session can reach is one the store
    made: its role is ['assistant'], or it is ['user'] and its content is a
    string that is not empty and neither starts nor ends with white
    space. *)
Theorem history_is_well_formed (es : list event) (w : world) :
  run E start es = Some w →
  Forall (fun msg =>
            role msg = units "assistant"
            ∨ (role msg = units "user"
               ∧ ∃ s, content msg = VStr s
                      ∧ s ≠ []
                      ∧ (∀ c, head s = Some c → isWhiteSpace c = false)
                      ∧ (∀ c, last s = Some c → isWhiteSpace c = false)))
    (chatHistory (current w)).
Proof.
  intros Hrun. eapply Forall_impl; [by eapply session_wellFormed|].
  intros msg [Ha|(Hu & s & Hs & Hne & Htrim)]; [by left|right].
  split; [done|]. exists s. split; [done|]. split; [done|].
  destruct (trim_spec s) as (_ & _ & _ & _ & _ & Hhead & Hlast).
  rewrite Htrim in Hhead, Hlast. done.
Qed.

(** X12.  As long as the history is not cleared, the user and the assistant
    take turns in it, the user first; [messageCounter] is its length; and
    [isLoading] is set exactly when its length is odd, that is, when the
    last message is the user's and its answer is still to come. *)
Theorem roles_take_turns (es : list event) (w : world) :
  Forall (fun e => clears e = false) es →
  run E start es = Some w →
  map role (chatHistory (current w)) = turns (length (chatHistory (current w)))
  ∧ messageCounter (current w) = N.of_nat (length (chatHistory (current w)))
  ∧ isLoading (current w) = Nat.odd (length (chatHistory (current w))).
Proof.
  intros Hes Hrun.
  apply (run_invariant (fun e => clears e = false)
    (fun w =>
       map role (chatHistory (current w))
       = turns (length (chatHistory (current w)))
       ∧ messageCounter (current w)
         = N.of_nat (length (chatHistory (current w)))
       ∧ isLoading (current w) = Nat.odd (length (chatHistory (current w)))))
    with (es := es) (w := start); try done.
  clear. intros w e w' He Hb (Hroles & Hcount & Hodd) Hstep.
  assert (Huser : ∀ c now,
    isLoading (current w) = false →
    let st1 := setLoading true (push (units "user") c now (current w)) in
    map role (chatHistory st1) = turns (length (chatHistory st1))
    ∧ messageCounter st1 = N.of_nat (length (chatHistory st1))
    ∧ Nat.odd (length (chatHistory st1)) = true).
  { intros c now Hl. cbn. rewrite Hl in Hodd.
    rewrite map_app, length_app, Nat.add_1_r, Hroles, Hcount. cbn.
    rewrite Nat.odd_succ. rewrite <- Nat.negb_odd, <- Hodd. cbn.
    repeat split; lia. }
  assert (Hassistant : ∀ st r now,
    map role (chatHistory st) = turns (length (chatHistory st)) →
    messageCounter st = N.of_nat (length (chatHistory st)) →
    Nat.odd (length (chatHistory st)) = true →
    let st2 := finish r now st in
    map role (chatHistory st2) = turns (length (chatHistory st2))
    ∧ messageCounter st2 = N.of_nat (length (chatHistory st2))
    ∧ isLoading st2 = Nat.odd (length (chatHistory st2))).
  { intros st r now Hr Hc Ho. cbn zeta.
    rewrite finish_history, finish_messageCounter, finish_isLoading.
    rewrite map_app, length_app, Nat.add_1_r, Hr, Hc. cbn.
    rewrite Nat.odd_succ, <- Nat.negb_odd, Ho. cbn.
    repeat split; lia. }
  destruct (step_cases _ _ _ Hstep)
    as [[-> _]|[(c & now & r & _ & Hl & -> & _)
       |[(c & now & now' & m & _ & Hl & -> & _)
       |[(r & now & Hn & _ & -> & _)|(Hclear & _)]]]].
  - done.
  - destruct (Huser (VStr (trim c)) now Hl) as (H1 & H2 & H3).
    by rewrite H1, H2, H3.
  - destruct (Huser (VStr (trim c)) now Hl) as (H1 & H2 & H3).
    by apply Hassistant.
  - apply Hassistant; try done. rewrite <- Hodd.
    unfold balanced in Hb. by destruct (isLoading (current w)).
  - congruence.
Qed.

(** X13.  As long as the history is not cleared, every request that was ever
    posted carries a prefix of the present history: what the view shows
    only ever extends what requests have carried. *)
Theorem requests_are_prefixes (es : list event) (w : world) :
  Forall (fun e => clears e = false) es →
  run E start es = Some w →
  Forall (fun r =>
            messages r
            `prefix_of` map (fun msg => (role msg, content msg))
                          (chatHistory (current w)))
    (sent w).
Proof.
  intros Hes Hrun.
  apply (run_invariant (fun e => clears e = false)
    (fun w =>
       Forall (fun r =>
                 messages r
                 `prefix_of` map (fun msg => (role msg, content msg))
                               (chatHistory (current w)))
         (sent w)))
    with (es := es) (w := start); try done.
  clear. intros w e w' He _ Hw Hstep.
  assert (Hgrow : ∀ h',
    Forall (fun r =>
              messages r
              `prefix_of` map (fun msg => (role msg, content msg))
                            (chatHistory (current w) ++ h'))
      (sent w)).
  { intros h'. eapply Forall_impl; [exact Hw|]. cbn. intros r Hr.
    rewrite map_app. by apply prefix_app_r. }
  destruct (step_cases _ _ _ Hstep)
    as [[-> ->]|[(c & now & r & _ & _ & Hst & -> & Hr)
       |[(c & now & now' & m & _ & _ & -> & ->)
       |[(r & now & _ & _ & -> & ->)|(Hclear & _)]]]].
  - done.
  - apply Forall_app. split.
    + rewrite Hst. apply Hgrow.
    + apply Forall_singleton. by rewrite Hr.
  - rewrite finish_history. cbn. rewrite <- app_assoc. apply Hgrow.
  - rewrite finish_history. apply Hgrow.
  - congruence.
Qed.

End SessionExtra.

(** ** The chat view *)

Section ChatViewFacts.

Import Str Chat ChatView.

Variable E : engine.

Lemma step_shown (w w' : world) (e : event) :
  shown w = array w → step E w e = Some w' → shown w' = array w'.
Proof.
  intros Hw. destruct e as [|text|config now now'| | |o now]; cbn [step].
  - by intros [= <-].
  - by intros [= <-].
  - intros [= <-]. unfold sendMessage.
    destruct (negb _); [done|].
    by destruct (Chat.sendMessage E _ _ _ _ _) as [st [v|r]].
  - by intros [= <-].
  - by intros [= <-].
  - destruct (inFlight w); [done|]. by intros [= <-].
Qed.

(** X14.  Once the view is mounted its ref holds the array of the store's
    ref after every event, also after the history has been cleared: what
    the template renders is the store's history. *)
Theorem view_shows_the_store (es : list event) (w : world) :
  run E initial (Mounted :: es) = Some w →
  shown w = array w ∧ displayed w = chatHistory (chat w).
Proof.
  change (run E (showStore initial) es = Some w →
          shown w = array w ∧ displayed w = chatHistory (chat w)).
  assert (Hrun : ∀ es w0, shown w0 = array w0 → run E w0 es = Some w →
                          shown w = array w).
  { clear es. induction es as [|e es IH]; cbn [run]; intros w0 Hw0.
    - by intros [= <-].
    - destruct (step E w0 e) as [w1|] eqn:Hs; [|done]. cbn.
      apply IH. by eapply step_shown. }
  intros Hes.
  assert (Hs : shown w = array w)
    by (by apply (Hrun es (showStore initial))).
  split; [done|]. unfold displayed. by rewrite decide_True.
Qed.

Lemma step_session (w w' : world) (e : event) :
  step E w e = Some w' →
  session w' = session w
  ∨ ∃ e', Session.step E (session w) e' = Some (session w').
Proof.
  destruct e as [|text|config now now'| | |o now]; cbn [step].
  - intros [= <-]. by left.
  - intros [= <-]. by left.
  - intros [= <-]. unfold sendMessage.
    destruct (negb _); [by left|]. right.
    exists (Session.Send config (inputMessage w) now now'). cbn.
    by destruct (Chat.sendMessage E _ _ _ _ _) as [st [v|r]].
  - intros [= <-]. right. by exists Session.ClearHistory.
  - intros [= <-]. right. by exists Session.NewConversation.
  - destruct (inFlight w) as [|n] eqn:Hn; [done|]. intros [= <-]. right.
    exists (Session.Settle o now). cbn. by rewrite Hn.
Qed.

Lemma run_session (es : list event) (w0 w : world) :
  run E w0 es = Some w →
  ∃ es', Session.run E (session w0) es' = Some (session w).
Proof.
  revert w0. induction es as [|e es IH]; cbn [run]; intros w0.
  - intros [= <-]. by exists [].
  - destruct (step E w0 e) as [w1|] eqn:Hs; [|done]. cbn. intros Hrun.
    destruct (IH _ Hrun) as [es' Hes'].
    destruct (step_session _ _ _ Hs) as [Heq|[e' He']].
    + exists es'. by rewrite <- Heq.
    + exists (e' :: es'). cbn. by rewrite He'.
Qed.

(** X15.  The view drives the store through a session: whatever is clicked
    and typed, the store is in a state some sequence of sends, clears and
    settled requests reaches.  So in the view, too, at most one request is
    in flight, with [isLoading] set exactly then; ids never repeat; and
    every message of the user is trimmed and not blank. *)
Theorem view_drives_a_session (es : list event) (w : world) :
  run E initial es = Some w →
  (∃ es', Session.run E Session.start es' = Some (session w))
  ∧ inFlight w = (if isLoading (chat w) then 1 else 0)
  ∧ NoDup (map id (chatHistory (chat w)))
  ∧ Forall wellFormed (chatHistory (chat w)).
Proof.
  intros Hrun. destruct (run_session _ _ _ Hrun) as [es' Hes'].
  split; [by exists es'|]. split; [|split].
  - apply (run_balanced E _ _ _ start_balanced Hes').
  - apply numbered_ids, (session_numbered E _ _ Hes').
  - apply (session_wellFormed E _ _ Hes').
Qed.

(** X16.  A send from the view while a request is in flight loses what was
    typed: the store ignores the call, nothing is pushed or posted, and the
    view then empties the input all the same. *)
Theorem busy_send_clears_the_input (config : value) (now now' : jsstring)
    (w : world) :
  isLoading (chat w) = true → trim (inputMessage w) ≠ [] →
  let w' := sendMessage E config now now' w in
  inputMessage w' = []
  ∧ chat w' = chat w
  ∧ sent w' = sent w
  ∧ inFlight w' = inFlight w.
Proof.
  intros Hl Hc. cbn zeta. unfold sendMessage. cbn [JS.truthy].
  rewrite bool_decide_eq_false_2 by done. cbn [negb].
  by rewrite sendMessage_rejected by auto.
Qed.

End ChatViewFacts.

(** ** The configuration view *)

Section ConfigViewFacts.

Import Str ConfigView.

Variable E : engine.



End ConfigViewFacts.

(** ** The further properties at concrete inputs *)

Section ExtraConcrete.

Import Str Sample.

Lemma config_is_never_nullish_witness :
  ∃ w,
    ConfigSession.run v8 ConfigSession.start settings = Some w
    ∧ JS.truthy (Config.config (ConfigSession.current w)) = true
    ∧ ∃ chat' r,
        Chat.sendMessage v8 (Config.config (ConfigSession.current w))
          (units "Hello") t0 t0 Chat.initial
        = (chat', Chat.Awaiting r).
Proof.
  eexists. split; [vm_compute; reflexivity|].
  edestruct (config_is_never_nullish v8 settings) as (Hc & _ & Hsend);
    [vm_compute; reflexivity|].
  split; [exact Hc|]. apply Hsend; [by vm_compute|reflexivity].
Defined.

Lemma saved_config_reloads_witness :
  JS.get v8 (obj [("config", (Config.saveConfig invalid Config.initial).2)])
    (units "config")
  = Ok (Config.saveConfig invalid Config.initial).2
  ∧ Config.config
      (Config.loadConfig_resume v8
         (Resolved (obj [("config",
                          (Config.saveConfig invalid Config.initial).2)]))
         (Config.loadConfig Config.initial)).1
    = Config.config (Config.saveConfig invalid Config.initial).1.
Proof.
  assert (Hget :
    JS.get v8 (obj [("config", (Config.saveConfig invalid Config.initial).2)])
      (units "config")
    = Ok (Config.saveConfig invalid Config.initial).2) by reflexivity.
  split; [exact Hget|].
  apply (saved_config_reloads v8 invalid Config.initial Config.initial _ Hget).
Defined.

Lemma sendMessage_ignores_blank_or_busy_witness :
  Forall (fun c => isWhiteSpace c = true) blank
  ∧ Chat.sendMessage v8 config blank t0 t0 Chat.initial
    = (Chat.initial, Chat.Fulfilled VUndefined).
Proof.
  assert (Hb : Forall (fun c => isWhiteSpace c = true) blank)
    by (repeat constructor).
  split; [exact Hb|].
  apply (sendMessage_ignores_blank_or_busy v8 config blank t0 t0 Chat.initial).
  by left.
Defined.

Lemma request_carries_whole_history_witness :
  ∃ st' r,
    Chat.sendMessage v8 config (units " And now? ") t2 t2 (settled status401)
    = (st', Chat.Awaiting r)
    ∧ Chat.messages r
      = [(units "user", str "Hello");
         (units "assistant",
          VStr (Chat.failurePrefix
                ++ units "Request failed with status code 401"));
         (units "user", str "And now?")]
    ∧ Chat.model r = str "gpt-3.5-turbo".
Proof.
  do 2 eexists. split; [vm_compute; reflexivity|].
  edestruct (request_carries_whole_history v8 config (units " And now? ")
               t2 t2 (settled status401))
    as (Hm & _); [vm_compute; reflexivity|].
  split; [rewrite Hm; reflexivity|reflexivity].
Defined.

Lemma malformed_choice_is_an_error_witness :
  Chat.aiContent v8 noMessage
  = Throw (units "Cannot read properties of undefined (reading 'content')")
  ∧ Chat.chatHistory (settled (Resolved noMessage))
    = [hello;
       answer (VStr (Chat.failurePrefix
                     ++ cannotRead v8 VUndefined (units "content")))].
Proof.
  destruct (malformed_choice_is_an_error v8
              (list_to_map
                 [(units "choices", VArr [obj [("index", VNum (0 # 1))]]);
                  (units "content", str "Hi there!")])
              (obj [("index", VNum (0 # 1))]) []
              (units "Cannot read properties of undefined (reading 'content')")
              t1 sending) as [Hc Hh].
  - reflexivity.
  - right. exists VUndefined. split; [reflexivity|]. split; [by left|].
    reflexivity.
  - split; [exact Hc|]. etransitivity; [exact Hh|reflexivity].
Defined.

Lemma choice_without_content_is_undefined_witness :
  Chat.aiContent v8 noContent = Ok VUndefined
  ∧ Chat.chatHistory (settled (Resolved noContent))
    = [hello; answer VUndefined].
Proof.
  destruct (choice_without_content_is_undefined v8
              (list_to_map
                 [(units "choices",
                   VArr [obj [("message", obj [("role", str "assistant")])]])])
              (list_to_map
                 [(units "message", obj [("role", str "assistant")])])
              (list_to_map [(units "role", str "assistant")])
              [] t1 sending) as [Hc Hh]; [reflexivity..|].
  split; [exact Hc|]. etransitivity; [exact Hh|reflexivity].
Defined.

Lemma message_ids_are_unique_witness :
  ∃ w,
    Session.run v8 Session.start interrupted = Some w
    ∧ map Chat.id (Chat.chatHistory (Session.current w)) = [units "msg_3"]
    ∧ NoDup (map Chat.id (Chat.chatHistory (Session.current w))).
Proof.
  eexists. split; [vm_compute; reflexivity|]. split; [reflexivity|].
  edestruct (message_ids_are_unique v8 interrupted) as [Hnd _];
    [vm_compute; reflexivity|].
  exact Hnd.
Defined.

Lemma history_is_well_formed_witness :
  ∃ w,
    Session.run v8 Session.start dialogue = Some w
    ∧ map Chat.content (Chat.chatHistory (Session.current w))
      = [str "Hello"; str "Hi there!"; str "And now?";
         VStr (Chat.failurePrefix ++ units "timeout of 30000ms exceeded")]
    ∧ Forall (fun msg =>
                Chat.role msg = units "assistant"
                ∨ (Chat.role msg = units "user"
                   ∧ ∃ s, Chat.content msg = VStr s
                          ∧ s ≠ []
                          ∧ (∀ c, head s = Some c → isWhiteSpace c = false)
                          ∧ (∀ c, last s = Some c → isWhiteSpace c = false)))
        (Chat.chatHistory (Session.current w)).
Proof.
  eexists. split; [vm_compute; reflexivity|]. split; [reflexivity|].
  apply (history_is_well_formed v8 dialogue). vm_compute; reflexivity.
Defined.

Lemma roles_take_turns_witness :
  Forall (fun e => Session.clears e = false) dialogue
  ∧ ∃ w,
      Session.run v8 Session.start dialogue = Some w
      ∧ map Chat.role (Chat.chatHistory (Session.current w))
        = [units "user"; units "assistant"; units "user"; units "assistant"]
      ∧ Chat.messageCounter (Session.current w) = 4%N
      ∧ Chat.isLoading (Session.current w) = false.
Proof.
  assert (Hd : Forall (fun e => Session.clears e = false) dialogue)
    by (repeat constructor).
  split; [exact Hd|].
  eexists. split; [vm_compute; reflexivity|].
  edestruct (roles_take_turns v8 dialogue) as (Hr & Hc & Hl);
    [exact Hd|vm_compute; reflexivity|].
  split; [rewrite Hr; reflexivity|].
  split; [rewrite Hc; reflexivity|]. rewrite Hl. reflexivity.
Defined.

Lemma requests_are_prefixes_witness :
  Forall (fun e => Session.clears e = false) dialogue
  ∧ ∃ w,
      Session.run v8 Session.start dialogue = Some w
      ∧ map Chat.messages (Session.sent w)
        = [[(units "user", str "Hello")];
           [(units "user", str "Hello");
            (units "assistant", str "Hi there!");
            (units "user", str "And now?")]]
      ∧ Forall (fun r =>
                  Chat.messages r
                  `prefix_of` map (fun msg => (Chat.role msg, Chat.content msg))
                                (Chat.chatHistory (Session.current w)))
          (Session.sent w).
Proof.
  assert (Hd : Forall (fun e => Session.clears e = false) dialogue)
    by (repeat constructor).
  split; [exact Hd|].
  eexists. split; [vm_compute; reflexivity|]. split; [reflexivity|].
  apply (requests_are_prefixes v8 dialogue); [exact Hd|].
  vm_compute; reflexivity.
Defined.

Lemma view_shows_the_store_witness :
  ∃ w,
    ChatView.run v8 ChatView.initial (ChatView.Mounted :: clicks) = Some w
    ∧ ChatView.array w = 2
    ∧ ChatView.shown w = 2
    ∧ ChatView.displayed w = [answer (str "Hi there!")].
Proof.
  eexists. split; [vm_compute; reflexivity|]. split; [reflexivity|].
  edestruct (view_shows_the_store v8 clicks) as [Hs Hd];
    [vm_compute; reflexivity|].
  split; [exact Hs|]. rewrite Hd. reflexivity.
Defined.

Lemma view_drives_a_session_witness :
  ∃ w,
    ChatView.run v8 ChatView.initial (ChatView.Mounted :: clicks) = Some w
    ∧ ChatView.inFlight w = 0
    ∧ NoDup (map Chat.id (Chat.chatHistory (ChatView.chat w))).
Proof.
  eexists. split; [vm_compute; reflexivity|].
  edestruct (view_drives_a_session v8 (ChatView.Mounted :: clicks))
    as (_ & Hb & Hnd & _); [vm_compute; reflexivity|].
  split; [rewrite Hb; reflexivity|exact Hnd].
Defined.

Lemma busy_send_clears_the_input_witness :
  Chat.isLoading (ChatView.chat waiting) = true
  ∧ trim (ChatView.inputMessage waiting) ≠ []
  ∧ ChatView.inputMessage (ChatView.sendMessage v8 config t1 t1 waiting) = []
  ∧ ChatView.chat (ChatView.sendMessage v8 config t1 t1 waiting) = sending.
Proof.
  assert (Hl : Chat.isLoading (ChatView.chat waiting) = true) by reflexivity.
  assert (Hc : trim (ChatView.inputMessage waiting) ≠ []) by (by vm_compute).
  split; [exact Hl|]. split; [exact Hc|].
  destruct (busy_send_clears_the_input v8 config t1 t1 waiting Hl Hc)
    as (Hi & Hchat & _).
  split; [exact Hi|exact Hchat].
Defined.


End ExtraConcrete.
